(** * node-taskrunner: the recursive task dispatcher and the Task base class

    A shallow embedding of [TaskRunner] (two revisions of the class are in the
    repository) and of [Task], followed by the properties of the design
    document that are about them.

    Conventions of the embedding.
    - JavaScript values are first-order data ([Js.value]); objects live in a
      store ([Js.heap]) and are passed by reference ([VRef]), so that a
      mutation through one reference is seen through every other one.
    - A method is a function of the store and of the dispatcher state that
      returns a completion: a value, a thrown exception (for an [async]
      method: the rejection of its promise) or [Fuel] when the recursion
      budget of the model is exhausted.  [await e] runs [e] to its
      settlement: the embedding observes results, faults and the order of the
      effects of one chain of calls, not the interleaving of sibling chains.
    - Numbers are the integers; properties are data properties (no accessors,
      no frozen objects); the prototype of an object in the store is fixed.
      The messages of the built-in errors are those of V8.
    - User code (task constructors, [run] methods of tasks, the parser hook)
      is a parameter: a [Js.host] record and the dispatcher configuration.
      It acts on the store, returns, and does not call back into the
      dispatcher; the notification callback records what it receives. *)

From Stdlib Require Import ZArith String List Bool Lia.
From stdpp Require Import base list strings pretty.

Open Scope string_scope.
Open Scope list_scope.

(* ------------------------------------------------------------------------- *)
(** * A model of the JavaScript values the library manipulates                *)
(* ------------------------------------------------------------------------- *)

Module Js.

(** Function objects: the built-in ones reachable from [Object.prototype], and
    the functions of the host program, named. *)
Inductive fn : Type :=
| Native (name : string)
| User (name : string).

Inductive value : Type :=
| VUndef
| VNull
| VBool (b : bool)
| VNum (n : Z)
| VStr (s : string)
| VFun (f : fn)
| VObjProto                      (* the object [Object.prototype] *)
| VRef (l : nat).                (* an object of the store *)

#[local] Set Warnings "-register-all".

(** What a [throw] carries.  [TaskRunnerException] and [TaskException] extend
    the [Exception] class of node-util, built from a message and an optional
    previous error. *)
Inductive exn : Type :=
| TaskRunnerException (msg : string) (previous : option exn)
| TaskException (msg : string)
| ReferenceError (msg : string)
| TypeError (msg : string)
| Thrown (v : value).

(** The state of a settled promise. *)
Inductive settled : Type :=
| Fulfilled (v : value)
| Rejected (e : exn).

Abbreviation props := (list (string * value)).

(** Objects of the store.  [OPojo]: a plain object (prototype
    [Object.prototype]); [OInst]: any other non-array object with its visible
    data properties; own properties are listed in enumeration order. *)
Inductive obj : Type :=
| OPojo (ps : props)
| OArray (es : list value)
| OInst (ps : props)
| OPromise (s : settled).

Abbreviation heap := (list obj).

Inductive completion (A : Type) : Type :=
| Normal (a : A)
| Throw (e : exn)
| Fuel.
Arguments Normal {A} a.
Arguments Throw {A} e.
Arguments Fuel {A}.

(** ** Primitive operations *)

(** ToBoolean. *)
Definition truthy (v : value) : bool :=
  match v with
  | VUndef | VNull => false
  | VBool b => b
  | VNum n => negb (n =? 0)%Z
  | VStr s => negb (String.eqb s "")
  | VFun _ | VObjProto | VRef _ => true
  end.

Definition typeof (v : value) : string :=
  match v with
  | VUndef => "undefined"
  | VNull => "object"
  | VBool _ => "boolean"
  | VNum _ => "number"
  | VStr _ => "string"
  | VFun _ => "function"
  | VObjProto | VRef _ => "object"
  end.

(** [v instanceof Array] *)
Definition instanceof_Array (h : heap) (v : value) : bool :=
  match v with
  | VRef l => match h !! l with Some (OArray _) => true | _ => false end
  | _ => false
  end.

(** Modelled from the spec: [isPojo] of node-objection is not part of this
    repository; the design document describes it as the predicate "is this
    value a plain keyed mapping (not an array, not a class instance with
    custom behavior)". *)
Definition isPojo (h : heap) (v : value) : bool :=
  match v with
  | VRef l => match h !! l with Some (OPojo _) => true | _ => false end
  | _ => false
  end.

(** ** Property lists *)

Fixpoint assoc_get (ps : props) (k : string) : option value :=
  match ps with
  | [] => None
  | (k', v) :: ps' => if String.eqb k' k then Some v else assoc_get ps' k
  end.

(** Assignment to an own data property: an existing key keeps its place, a
    new key is appended. *)
Fixpoint assoc_set (ps : props) (k : string) (v : value) : props :=
  match ps with
  | [] => [(k, v)]
  | (k', v') :: ps' =>
      if String.eqb k' k then (k', v) :: ps' else (k', v') :: assoc_set ps' k v
  end.

(** The data properties every object inherits from [Object.prototype]. *)
Definition Object_prototype_methods : list string :=
  [ "__defineGetter__"; "__defineSetter__"; "hasOwnProperty";
    "__lookupGetter__"; "__lookupSetter__"; "isPrototypeOf";
    "propertyIsEnumerable"; "toString"; "valueOf"; "toLocaleString" ].

Definition Object_prototype_get (k : string) : value :=
  if String.eqb k "constructor" then VFun (Native "Object")
  else if existsb (String.eqb k) Object_prototype_methods then VFun (Native k)
  else VUndef.

(** [o[k]] for a plain object [o]: own properties first, then the prototype
    ([__proto__] is the accessor that answers the prototype itself). *)
Definition pojo_get (ps : props) (k : string) : value :=
  match assoc_get ps k with
  | Some v => v
  | None => if String.eqb k "__proto__" then VObjProto else Object_prototype_get k
  end.

(** [o[k] = v] for a plain object [o].  Writing [__proto__] on an object that
    has no own property of that name reaches the accessor and creates no own
    property. *)
Definition pojo_set (ps : props) (k : string) (v : value) : props :=
  match assoc_get ps k with
  | Some _ => assoc_set ps k v
  | None => if String.eqb k "__proto__" then ps else assoc_set ps k v
  end.

(** ToString on primitives; [on_object] answers for objects and functions,
    whose conversion runs their [toString] and is taken to return.  An
    integer is printed in full: JavaScript prints a number of 22 digits or
    more in exponent form. *)
Definition to_js_string (on_object : value -> string) (v : value) : string :=
  match v with
  | VUndef => "undefined"
  | VNull => "null"
  | VBool true => "true"
  | VBool false => "false"
  | VNum n => pretty n
  | VStr s => s
  | VFun _ | VObjProto | VRef _ => on_object v
  end.

(** ** Reading and writing properties through a reference *)

(** [o[k]] and [o[k] = x] on an object of the store, for the names the library
    reads ([type], [options], [id], [args], [length]) and for every name on a
    plain object.  Names answered by the prototypes of arrays, promises and
    class instances are not part of the model, and named properties added to
    arrays and promises are not tracked. *)
Definition obj_get (o : obj) (k : string) : value :=
  match o with
  | OPojo ps => pojo_get ps k
  | OInst ps => default VUndef (assoc_get ps k)
  | OArray es => if String.eqb k "length" then VNum (Z.of_nat (length es)) else VUndef
  | OPromise _ => VUndef
  end.

Definition obj_set (o : obj) (k : string) (x : value) : obj :=
  match o with
  | OPojo ps => OPojo (pojo_set ps k x)
  | OInst ps => OInst (assoc_set ps k x)
  | OArray _ | OPromise _ => o
  end.

(** [v[k]].  A function value is read as one that carries none of the names
    the library reads: its own properties are not tracked here. *)
Definition get_prop (h : heap) (v : value) (k : string) : completion value :=
  match v with
  | VUndef =>
      Throw (TypeError ("Cannot read properties of undefined (reading '" ++ k ++ "')"))
  | VNull =>
      Throw (TypeError ("Cannot read properties of null (reading '" ++ k ++ "')"))
  | VRef l => Normal (match h !! l with Some o => obj_get o k | None => VUndef end)
  | VStr s =>
      Normal (if String.eqb k "length" then VNum (Z.of_nat (String.length s)) else VUndef)
  | VObjProto =>
      Normal (if String.eqb k "__proto__" then VNull else Object_prototype_get k)
  | VBool _ | VNum _ | VFun _ => Normal VUndef
  end.

(** [v[k] = x] in strict-mode code (class bodies are strict). *)
Definition set_prop (h : heap) (v : value) (k : string) (x : value) : completion heap :=
  match v with
  | VUndef =>
      Throw (TypeError ("Cannot set properties of undefined (setting '" ++ k ++ "')"))
  | VNull =>
      Throw (TypeError ("Cannot set properties of null (setting '" ++ k ++ "')"))
  | VRef l => Normal (match h !! l with Some o => <[l := obj_set o k x]> h | None => h end)
  | VBool _ | VNum _ | VStr _ =>
      Throw (TypeError ("Cannot create property '" ++ k ++ "' on " ++ typeof v))
  | VFun _ | VObjProto => Normal h
  end.

(** Allocation of a new object: its address is the next free one. *)
Definition alloc (h : heap) (o : obj) : heap * value := (h ++ [o], VRef (length h)).

(** [a[i]] and [a[i] = x] for an array [a] and an index [i]; a write past the
    end extends the array, the holes reading [undefined]. *)
Definition get_index (h : heap) (v : value) (i : nat) : value :=
  match v with
  | VRef l => match h !! l with
              | Some (OArray es) => default VUndef (es !! i)
              | _ => VUndef
              end
  | _ => VUndef
  end.

Definition array_put (es : list value) (i : nat) (x : value) : list value :=
  if (i <? length es)%nat then <[i := x]> es
  else es ++ replicate (i - length es) VUndef ++ [x].

Definition set_index (h : heap) (v : value) (i : nat) (x : value) : heap :=
  match v with
  | VRef l => match h !! l with
              | Some (OArray es) => <[l := OArray (array_put es i x)]> h
              | _ => h
              end
  | _ => h
  end.

(** [Object.entries(o)] of a plain object. *)
Definition Object_entries (h : heap) (v : value) : props :=
  match v with
  | VRef l => match h !! l with Some (OPojo ps) => ps | _ => [] end
  | _ => []
  end.

(** The elements [...v] spreads into an argument list. *)
Definition spread (h : heap) (v : value) : completion (list value) :=
  match v with
  | VRef l => match h !! l with
              | Some (OArray es) => Normal es
              | _ => Throw (TypeError "Spread syntax requires ...iterable[Symbol.iterator] to be a function")
              end
  | VStr s => Normal (map (fun c => VStr (String c EmptyString)) (list_ascii_of_string s))
  | _ => Throw (TypeError "Spread syntax requires ...iterable[Symbol.iterator] to be a function")
  end.

(** ** User code *)

(** What [new C(runner, options)] gives for a user function [C]: a task whose
    [run] method is a function of the argument list and the store, or the
    exception the constructor throws. *)
Inductive constructed : Type :=
| Instance (run : list value -> heap -> settled * heap)
| ConstructThrows (e : exn).

Record host : Type := {
  (** [new C(runner, options)] for the user function named [C] *)
  host_new : string -> value -> heap -> constructed * heap;
  (** ToString of an object or function *)
  host_to_string : value -> string;
  (** [f[k]] read through the function object [f] and its prototypes *)
  host_fn_get : fn -> string -> value
}.

End Js.

(* ------------------------------------------------------------------------- *)
(** * The base class [Task]                                                   *)
(* ------------------------------------------------------------------------- *)

Module Task.
Import Js.

(** Completions that thread nothing but the store. *)
Definition and_then {A B} (c : completion A) (k : A -> completion B) : completion B :=
  match c with
  | Normal a => k a
  | Throw e => Throw e
  | Fuel => Fuel
  end.

(** The fields of an instance: [this.timer] (the reading of the clock when the
    timer was created), [this._defaults] and [this._] (the effective
    options). *)
Record t : Type := mkTask {
  timer : N;
  _defaults : value;
  options_ : value
}.

(** Modelled from the spec: [Timer] of node-util is not part of this
    repository; the design document describes it as "a monotonic start/stop
    duration measurement".  [timer.end( 'construct' )] is the time elapsed
    since the timer was created, in the format of [process.hrtime]: a pair of
    seconds and nanoseconds.  Clock readings are in nanoseconds. *)
Definition elapsed (created now : N) : list value :=
  let d := (now - created)%N in
  [VNum (Z.of_N (d / 1000000000)); VNum (Z.of_N (d mod 1000000000))].

Definition Timer_end (h : heap) (created now : N) : heap * value :=
  alloc h (OArray (elapsed created now)).

Section Collaborators.

(** [cloneObject( o, true )] and [mergeObject( target, changes, true, true,
    true, true )] of node-objection are not part of this repository: they are
    parameters.  [cloneObject] answers the store with the copy in it,
    [mergeObject] the store in which [target] has been updated. *)
Variable cloneObject : heap -> value -> heap * value.
Variable mergeObject : heap -> value -> value -> heap.

(** <<
    constructor( runner, options = null, defaults = {} ) {
        if ( !defaults.id ) {
            defaults.id = strand();
        }
        this.timer = new Timer();
        this.runner = runner;
        this._defaults = defaults;
        this._ = cloneObject( this._defaults, true );
        if ( options && isPojo( options ) ) {
            mergeObject( this._, options, true, true, true, true );
        }
    }
    >>
    [fresh_id] is what [strand()] answers and [now] the reading of the clock;
    [this.runner] is the dispatcher itself and is not stored. *)
Definition new (fresh_id : string) (now : N) (h : heap) (options defaults : value)
  : completion (heap * t) :=
  let options := match options with VUndef => VNull | _ => options end in
  let '(h, defaults) :=
    match defaults with VUndef => alloc h (OPojo []) | _ => (h, defaults) end in
  and_then (get_prop h defaults "id") (fun id =>
  and_then (if negb (truthy id) then set_prop h defaults "id" (VStr fresh_id) else Normal h)
    (fun h =>
  let '(h, o) := cloneObject h defaults in
  let h := if truthy options && isPojo h options then mergeObject h o options else h in
  Normal (h, {| timer := now; _defaults := defaults; options_ := o |}))).

(** <<
    stats( data = {} ) {
        data.id = this._.id;
        data.time = this.timer.end( 'construct' );
        return data;
    }
    >> *)
Definition stats (this : t) (now : N) (h : heap) (data : value) : completion (heap * value) :=
  let '(h, data) :=
    match data with VUndef => alloc h (OPojo []) | _ => (h, data) end in
  and_then (get_prop h (options_ this) "id") (fun id =>
  and_then (set_prop h data "id" id) (fun h =>
  let '(h, time) := Timer_end h (timer this) now in
  and_then (set_prop h data "time" time) (fun h =>
  Normal (h, data)))).

(** <<
    async run() {
        throw new TaskException( 'Task must implement a run method' );
    }
    >> *)
Definition run (this : t) (args : list value) (h : heap) : settled * heap :=
  (Rejected (TaskException "Task must implement a run method"), h).

End Collaborators.

(** A reference implementation of the two collaborators on option objects
    whose values are shared, not copied: the copy is a new plain object with
    the properties of the source, and the merge assigns every property of
    [changes] to [target]. *)
Definition clone_flat (h : heap) (v : value) : heap * value :=
  match v with
  | VRef l =>
      match h !! l with
      | Some (OPojo ps) => alloc h (OPojo ps)
      | Some (OArray es) => alloc h (OArray es)
      | _ => (h, v)
      end
  | _ => (h, v)
  end.

Definition merge_flat (h : heap) (target changes : value) : heap :=
  match target with
  | VRef l =>
      match h !! l with
      | Some o =>
          <[l := fold_right (fun '(k, v) o => obj_set o k v) o (Object_entries h changes)]> h
      | None => h
      end
  | _ => h
  end.

End Task.

(* ------------------------------------------------------------------------- *)
(** * The dispatcher: class [TaskRunner]                                      *)
(* ------------------------------------------------------------------------- *)

Module TaskRunner.
Import Js.

(** The object [this._types].  It is created as [{}], so it inherits from
    [Object.prototype] until a write to [__proto__] gives it a function for
    prototype ([register] stores functions only). *)
Record registry : Type := mkRegistry {
  types_own : props;
  types_proto : option fn
}.

(** [this._types = {}] *)
Definition no_types : registry := {| types_own := []; types_proto := None |}.

(** The constructor arguments of a dispatcher.  [_notify] tells whether a
    notification callback is configured; its calls are recorded in the
    state.  The parser hook receives the task data and may mutate the
    store. *)
Record config : Type := mkConfig {
  _strict : bool;
  _notify : bool;
  _parser : option (value -> heap -> heap)
}.

Record state : Type := mkState {
  st_heap : heap;
  _types : registry;
  notified : list exn
}.

Definition with_heap (σ : state) (h : heap) : state :=
  {| st_heap := h; _types := _types σ; notified := notified σ |}.

Definition with_types (σ : state) (r : registry) : state :=
  {| st_heap := st_heap σ; _types := r; notified := notified σ |}.

Definition with_notified (σ : state) (e : exn) : state :=
  {| st_heap := st_heap σ; _types := _types σ; notified := notified σ ++ [e] |}.

(** ** The monad of methods *)

Definition M (A : Type) : Type := state -> completion A * state.

Definition ret {A} (a : A) : M A := fun σ => (Normal a, σ).

Definition bind {A B} (m : M A) (k : A -> M B) : M B :=
  fun σ =>
    match m σ with
    | (Normal a, σ') => k a σ'
    | (Throw e, σ') => (Throw e, σ')
    | (Fuel, σ') => (Fuel, σ')
    end.

Definition throw {A} (e : exn) : M A := fun σ => (Throw e, σ).

Definition out_of_fuel {A} : M A := fun σ => (Fuel, σ).

(** [try { m } catch (e) { handler e }] *)
Definition try_catch {A} (m : M A) (handler : exn -> M A) : M A :=
  fun σ =>
    match m σ with
    | (Throw e, σ') => handler e σ'
    | r => r
    end.

Declare Scope js_scope.
Notation "'let*' x ':=' m 'in' k" := (bind m (fun x => k))
  (at level 10, x binder, m at level 100, k at level 200) : js_scope.
Notation "m ;;; k" := (bind m (fun _ => k))
  (at level 100, k at level 200, right associativity) : js_scope.
Open Scope js_scope.

Definition lift {A} (f : heap -> completion A) : M A :=
  fun σ => (f (st_heap σ), σ).

Definition getp (v : value) (k : string) : M value :=
  lift (fun h => get_prop h v k).

Definition setp (v : value) (k : string) (x : value) : M unit :=
  fun σ =>
    match set_prop (st_heap σ) v k x with
    | Normal h' => (Normal tt, with_heap σ h')
    | Throw e => (Throw e, σ)
    | Fuel => (Fuel, σ)
    end.

Definition new_obj (o : obj) : M value :=
  fun σ => let (h', r) := alloc (st_heap σ) o in (Normal r, with_heap σ h').

Definition test (p : heap -> bool) : M bool := fun σ => (Normal (p (st_heap σ)), σ).

(** Resolution of an identifier against the bindings of the running function.
    The module scope binds [Exception], [isPojo], [TaskRunnerException] and
    [TaskRunner], and Node's global object carries no task data: any other
    name is unresolvable. *)
Definition resolve (scope : props) (x : string) : M value :=
  match assoc_get scope x with
  | Some v => ret v
  | None => throw (ReferenceError (x ++ " is not defined"))
  end.

(** [this._types[k]] and [this._types[k] = f].  The assignment is that of a
    registry whose inherited properties can be shadowed: those of
    [Object.prototype] all can.  Once a function has been made the prototype
    of the registry, an assignment to a name that the function answers with a
    read-only property ([name], [length], [prototype]) throws in the strict
    class body and is outside of [types_set]: a statement about a first
    registration under a name says whether it covers such a registry. *)
Definition types_get (fn_get : fn -> string -> value) (r : registry) (k : string) : value :=
  match assoc_get (types_own r) k with
  | Some v => v
  | None =>
      match types_proto r with
      | None => if String.eqb k "__proto__" then VObjProto else Object_prototype_get k
      | Some f => if String.eqb k "__proto__" then VFun f else fn_get f k
      end
  end.

Definition types_set (r : registry) (k : string) (v : value) : registry :=
  match assoc_get (types_own r) k with
  | Some _ => {| types_own := assoc_set (types_own r) k v; types_proto := types_proto r |}
  | None =>
      if String.eqb k "__proto__" then
        match v with
        | VFun f => {| types_own := types_own r; types_proto := Some f |}
        | _ => r
        end
      else {| types_own := assoc_set (types_own r) k v; types_proto := types_proto r |}
  end.

Section Dispatcher.

Variable env : host.
Variable cfg : config.

Definition to_str (v : value) : string := to_js_string (host_to_string env) v.

(** <<
    error( err ) {
        if ( this._strict ) throw err;
        if ( this._notify ) this._notify( err );
    }
    >>
    The notification callback is taken to return: it records what it
    receives.  The call is not guarded, so that a callback that throws makes
    the caller of [error] throw. *)
Definition error (err : exn) : M unit :=
  if _strict cfg then throw err
  else if _notify cfg then (fun σ => (Normal tt, with_notified σ err))
  else ret tt.

(** <<
    register( name, TaskConstructor, replace = false ) {
        if ( typeof TaskConstructor !== 'function' ) {
            this.error( new TaskRunnerException( 'Task constructor must be a constructor: ' + name ) );
            return;
        }
        if ( !replace && this._types[ name ] ) {
            this.error( new TaskRunnerException( 'Task constructor already defined: ' + name ) );
        } else {
            this._types[ name ] = TaskConstructor;
        }
    }
    >> *)
Definition register (name : string) (TaskConstructor : value) (replace : bool) : M unit :=
  if negb (String.eqb (typeof TaskConstructor) "function") then
    error (TaskRunnerException ("Task constructor must be a constructor: " ++ name) None)
  else
    let* cur := (fun σ => (Normal (types_get (host_fn_get env) (_types σ) name), σ)) in
    if negb replace && truthy cur then
      error (TaskRunnerException ("Task constructor already defined: " ++ name) None)
    else
      (fun σ => (Normal tt, with_types σ (types_set (_types σ) name TaskConstructor))).

(** <<
    getTaskConstructor( name ) {
        if ( this._types[ name ] ) {
            return this._types[ name ];
        }
        return null;
    }
    >>
    The property key is the string [name] converts to. *)
Definition getTaskConstructor (name : value) : M value :=
  fun σ =>
    let c := types_get (host_fn_get env) (_types σ) (to_str name) in
    (Normal (if truthy c then c else VNull), σ).

(** [new TaskConstructor( this, options )]: the [run] method of the new task.
    The built-in [Object], called with an object for first argument, answers
    that object: the dispatcher itself, whose [run] takes one argument. *)
Definition new_task (self_run : value -> M value) (TaskConstructor options : value)
  : M (list value -> M value) :=
  match TaskConstructor with
  | VFun (User c) =>
      fun σ =>
        match host_new env c options (st_heap σ) with
        | (Instance task_run, h') =>
            (Normal (fun args σ1 =>
                       match task_run args (st_heap σ1) with
                       | (Fulfilled v, h1) => (Normal v, with_heap σ1 h1)
                       | (Rejected e, h1) => (Throw e, with_heap σ1 h1)
                       end),
             with_heap σ h')
        | (ConstructThrows e, h') => (Throw e, with_heap σ h')
        end
  | VFun (Native name) =>
      if String.eqb name "Object"
      then ret (fun args => self_run (default VUndef (args !! 0%nat)))
      else throw (TypeError "TaskConstructor is not a constructor")
  | _ => throw (TypeError "TaskConstructor is not a constructor")
  end.

(** The three normalisation steps of [task]:
    <<
        if ( !isPojo( taskData.options ) ) {
            taskData.options = {};
        }
        if ( taskData.id ) {
            taskData.options.id = taskData.id;
        }
        if ( !( taskData.args instanceof Array ) ) {
            taskData.args = taskData.args ? [ taskData.args ] : [];
        }
    >> *)
Definition ensure_options (taskData : value) : M unit :=
  let* opts := getp taskData "options" in
  let* pojo := test (fun h => isPojo h opts) in
  if negb pojo then (let* o := new_obj (OPojo []) in setp taskData "options" o) else ret tt.

Definition inject_id (taskData : value) : M unit :=
  let* id := getp taskData "id" in
  if truthy id then (let* opts := getp taskData "options" in setp opts "id" id) else ret tt.

Definition ensure_args (taskData : value) : M unit :=
  let* args := getp taskData "args" in
  let* arr := test (fun h => instanceof_Array h args) in
  if negb arr then
    (let* a := new_obj (OArray (if truthy args then [args] else [])) in setp taskData "args" a)
  else ret tt.

Definition normalize (taskData : value) : M unit :=
  ensure_options taskData ;;; inject_id taskData ;;; ensure_args taskData.

(** [if ( this._parser ) this._parser( taskData );]  The hook is taken to
    return: the call is outside of every [try] of [task], so that a hook
    that throws makes [task] reject with what it throws, in every mode. *)
Definition parse (taskData : value) : M unit :=
  match _parser cfg with
  | Some parser => fun σ => (Normal tt, with_heap σ (parser taskData (st_heap σ)))
  | None => ret tt
  end.

(** The part of [task] that follows the normalisation: look the constructor
    up, construct the task, run it.
    <<
        const TaskConstructor = this.getTaskConstructor( taskData.type );
        if ( !TaskConstructor ) {
            this.error( new TaskRunnerException( 'Unknown task type: ' + taskData.type ) );
            return null;
        }
        let stats = null, task;
        try {
            task = new TaskConstructor( this, taskData.options );
        } catch ( e ) {
            this.error( new TaskRunnerException( 'Failed to construct task: ' + taskData.type, e ) );
            return null;
        }
        try {
            stats = await task.run( ...taskData.args );
        } catch ( e ) {
            this.error( new TaskRunnerException( 'Failed to run task: ' + taskData.type, e ) );
            return null;
        }
        return stats;
    >> *)
Definition fault (prefix : string) (taskData : value) (previous : option exn) : M value :=
  let* ty := getp taskData "type" in
  error (TaskRunnerException (prefix ++ to_str ty) previous) ;;;
  ret VNull.

Definition construct_and_run (self_run : value -> M value) (taskData : value) : M value :=
  let* ty := getp taskData "type" in
  let* TaskConstructor := getTaskConstructor ty in
  if negb (truthy TaskConstructor) then fault "Unknown task type: " taskData None
  else
    fun σ =>
      match (let* opts := getp taskData "options" in new_task self_run TaskConstructor opts) σ with
      | (Throw e, σ1) => fault "Failed to construct task: " taskData (Some e) σ1
      | (Fuel, σ1) => (Fuel, σ1)
      | (Normal task_run, σ1) =>
          try_catch
            (let* args := getp taskData "args" in let* xs := lift (fun h => spread h args) in task_run xs)
            (fun e => fault "Failed to run task: " taskData (Some e))
            σ1
      end.

(** <<
    async task( taskData ) {
        if ( !taskData || typeof taskData !== 'object' || typeof taskData.type !== 'string' || !taskData.type.length ) {
            this.error( new TaskRunnerException( 'Invalid task type: ' + taskData.type ) );
            return null;
        }
        if ( this._parser ) {
            this._parser( taskData );
        }
        ...
    }
    >> *)
Definition invalid_task (h : heap) (taskData : value) : bool :=
  negb (truthy taskData)
  || negb (String.eqb (typeof taskData) "object")
  || match get_prop h taskData "type" with
     | Normal (VStr s) => (String.length s =? 0)%nat
     | _ => true
     end.

Definition task (self_run : value -> M value) (taskData : value) : M value :=
  let* invalid := test (fun h => invalid_task h taskData) in
  if invalid then fault "Invalid task type: " taskData None
  else
    parse taskData ;;;
    normalize taskData ;;;
    construct_and_run self_run taskData.

(** [this.run( value )] started and not awaited: the promise of the call.  The
    call runs to its settlement and the promise records it. *)
Definition start (m : M value) : M value :=
  fun σ =>
    match m σ with
    | (Normal v, σ') => new_obj (OPromise (Fulfilled v)) σ'
    | (Throw e, σ') => new_obj (OPromise (Rejected e)) σ'
    | (Fuel, σ') => (Fuel, σ')
    end.

(** [await p] *)
Definition await (p : value) : M value :=
  fun σ =>
    match p with
    | VRef l =>
        match st_heap σ !! l with
        | Some (OPromise (Fulfilled v)) => (Normal v, σ)
        | Some (OPromise (Rejected e)) => (Throw e, σ)
        | _ => (Normal p, σ)
        end
    | _ => (Normal p, σ)
    end.

(** [await Promise.all( tasks )], the array of results being dropped: the
    first rejected promise of the list rejects the whole. *)
Fixpoint await_all (tasks : list value) : M unit :=
  match tasks with
  | [] => ret tt
  | p :: rest => await p ;;; await_all rest
  end.

(** <<
    async parallel( taskMap ) {
        if ( !isPojo( taskMap ) || typeof taskMap.type === 'string' ) {
            this.error( new TaskRunnerException( 'Invalid parallel type: ' + typeof taskMap ) );
            return {};
        }
        const tasks = [];
        const stats = {};
        const entries = Object.entries( taskMap );
        for ( let i = 0; i < entries.length; i++ ) {
            const [ name, value ] = entries[ i ];
            stats[ name ] = this.run( value );
            tasks.push( stats[ name ] );
        }
        await Promise.all( tasks );
        return stats;
    }
    >>
    [tasks] is local to the call and kept out of the store; what
    [stats[ name ]] reads back is the promise just written. *)
Fixpoint parallel_loop (self_run : value -> M value) (stats : value) (entries : props)
  : M (list value) :=
  match entries with
  | [] => ret []
  | (name, value) :: rest =>
      let* p := start (self_run value) in
      setp stats name p ;;;
      let* tasks := parallel_loop self_run stats rest in
      ret (p :: tasks)
  end.

Definition parallel (self_run : value -> M value) (taskMap : value) : M value :=
  let* pojo := test (fun h => isPojo h taskMap) in
  let* invalid :=
    (if negb pojo then ret true
     else let* ty := getp taskMap "type" in ret (String.eqb (typeof ty) "string")) in
  if (invalid : bool) then
    error (TaskRunnerException ("Invalid parallel type: " ++ typeof taskMap) None) ;;;
    new_obj (OPojo [])
  else
    let* stats := new_obj (OPojo []) in
    let* entries := (fun σ => (Normal (Object_entries (st_heap σ) taskMap), σ)) in
    let* tasks := parallel_loop self_run stats entries in
    await_all tasks ;;;
    ret stats.

(** <<
    async sequence( taskMap ) {
        if ( !( taskMap instanceof Array ) ) {
            this.error( new TaskRunnerException( 'Invalid sequence type: ' + typeof taskMap ) );
            return [];
        }
        const stats = [];
        for ( let i = 0; i < taskMap.length; i++ ) {
            stats[ i ] = await this.run( taskMap[ i ] );
        }
        return stats;
    }
    >>
    The loop reads [taskMap.length] at every turn; [fuel] bounds the number of
    turns. *)
Definition array_length (h : heap) (v : value) : nat :=
  match v with
  | VRef l => match h !! l with Some (OArray es) => length es | _ => 0 end
  | _ => 0
  end.

Fixpoint sequence_loop (self_run : value -> M value) (taskMap stats : value)
    (fuel i : nat) : M unit :=
  match fuel with
  | O => out_of_fuel
  | S fuel' =>
      let* len := (fun σ => (Normal (array_length (st_heap σ) taskMap), σ)) in
      if (i <? len)%nat then
        let* x := (fun σ => (Normal (get_index (st_heap σ) taskMap i), σ)) in
        let* r := self_run x in
        (fun σ => (Normal tt, with_heap σ (set_index (st_heap σ) stats i r))) ;;;
        sequence_loop self_run taskMap stats fuel' (S i)
      else ret tt
  end.

Definition sequence (fuel : nat) (self_run : value -> M value) (taskMap : value) : M value :=
  let* arr := test (fun h => instanceof_Array h taskMap) in
  if negb arr then
    error (TaskRunnerException ("Invalid sequence type: " ++ typeof taskMap) None) ;;;
    new_obj (OArray [])
  else
    let* stats := new_obj (OArray []) in
    sequence_loop self_run taskMap stats fuel 0 ;;;
    ret stats.

(** <<
    async run( taskInput ) {
        let stats = null;
        if ( taskMap instanceof Array ) {
            stats = await this.sequence( taskMap );
        } else if ( isPojo( taskMap ) ) {
            if ( taskInput.type ) {
                stats = await this.task( taskInput );
            } else {
                stats = await this.parallel( taskMap );
            }
        } else {
            this.error( new TaskRunnerException( 'Invalid taskInput type: ' + typeof taskInput ) );
            return null;
        }
        return stats;
    }
    >>
    The bindings of the body are the parameter [taskInput] and the local
    [stats]; every occurrence of an identifier is resolved against them. *)
Fixpoint run (fuel : nat) (taskInput : value) : M value :=
  match fuel with
  | O => out_of_fuel
  | S fuel' =>
      let scope := [("taskInput", taskInput); ("stats", VNull)] in
      let* v := resolve scope "taskMap" in
      let* arr := test (fun h => instanceof_Array h v) in
      if (arr : bool) then
        let* taskMap := resolve scope "taskMap" in
        sequence fuel' (run fuel') taskMap
      else
        let* v := resolve scope "taskMap" in
        let* pojo := test (fun h => isPojo h v) in
        if (pojo : bool) then
          let* taskInput := resolve scope "taskInput" in
          let* ty := getp taskInput "type" in
          if truthy ty then
            let* taskInput := resolve scope "taskInput" in
            task (run fuel') taskInput
          else
            let* taskMap := resolve scope "taskMap" in
            parallel (run fuel') taskMap
        else
          let* taskInput := resolve scope "taskInput" in
          error (TaskRunnerException ("Invalid taskInput type: " ++ typeof taskInput) None) ;;;
          ret VNull
  end.

End Dispatcher.
End TaskRunner.

(* ------------------------------------------------------------------------- *)
(** * The earlier revision of [TaskRunner]                                    *)
(* ------------------------------------------------------------------------- *)

(** The repository holds an earlier revision of the class.  Its [error],
    [register] and [getTaskConstructor] are the ones above, letter for letter;
    its [task] differs by the first test; its [run] sends arrays to [parallel]
    and plain objects to [sequence]. *)
Module EarlierRevision.
Import Js TaskRunner.

Section Dispatcher.

Variable env : host.
Variable cfg : config.

(** <<
    async task( taskData ) {
        if ( typeof taskData.type !== 'string' || !taskData.type.length ) {
            this.error( new TaskRunnerException( 'Invalid task type: ' + taskData.type ) );
            return null;
        }
        ... (as in the later revision)
    }
    >> *)
Definition task (self_run : value -> M value) (taskData : value) : M value :=
  let* ty := getp taskData "type" in
  if match ty with VStr s => (String.length s =? 0)%nat | _ => true end then
    fault env cfg "Invalid task type: " taskData None
  else
    parse cfg taskData ;;;
    normalize taskData ;;;
    construct_and_run env cfg self_run taskData.

(** <<
    async run( taskMap ) {
        let stats;
        if ( taskMap instanceof Array ) {
            stats = await this.parallel( taskMap );
        } else if ( isPojo( taskMap ) ) {
            if ( taskMap.type ) {
                stats = await this.task( taskMap );
            } else {
                stats = await this.sequence( taskMap );
            }
        } else {
            this.error( new TaskRunnerException( 'Invalid taskMap type: ' + typeof taskMap ) );
            return null;
        }
        return stats;
    }
    >>
    The methods [run] calls on [this] are parameters here. *)
Section Run.

Variables this_parallel this_sequence this_task : value -> M value.

Definition run (taskMap : value) : M value :=
  let* arr := test (fun h => instanceof_Array h taskMap) in
  if (arr : bool) then this_parallel taskMap
  else
    let* pojo := test (fun h => isPojo h taskMap) in
    if (pojo : bool) then
      let* ty := getp taskMap "type" in
      if truthy ty then this_task taskMap else this_sequence taskMap
    else
      error cfg (TaskRunnerException ("Invalid taskMap type: " ++ typeof taskMap) None) ;;;
      ret VNull.

End Run.
End Dispatcher.
End EarlierRevision.

(* ------------------------------------------------------------------------- *)
(** * Vocabulary of the statements                                            *)
(* ------------------------------------------------------------------------- *)

Module Frame.
Import Js TaskRunner.

(** Objects that carry named data properties. *)
Definition is_record (o : obj) : bool :=
  match o with
  | OPojo _ | OInst _ => true
  | OArray _ | OPromise _ => false
  end.

(** [o'] is [o] up to the own properties named in [ks]. *)
Definition same_but (ks : list string) (o o' : obj) : Prop :=
  match o, o' with
  | OPojo ps, OPojo ps' | OInst ps, OInst ps' =>
      forall k, ~ In k ks -> assoc_get ps' k = assoc_get ps k
  | OArray es, OArray es' => es = es'
  | OPromise s, OPromise s' => s = s'
  | _, _ => False
  end.

(** Every object of [h] is still in [h'], at the same address, unchanged up
    to the own properties named in [ks]; [h'] may hold new objects. *)
Definition extends_but (ks : list string) (h h' : heap) : Prop :=
  forall l o, h !! l = Some o -> exists o', h' !! l = Some o' /\ same_but ks o o'.

(** The argument list [task] computes from the value [args] of the task data:
    <<taskData.args instanceof Array ? taskData.args
       : taskData.args ? [ taskData.args ] : []>> *)
Definition args_elems (h : heap) (args : value) : list value :=
  match args with
  | VRef l =>
      match h !! l with
      | Some (OArray es) => es
      | _ => [args]
      end
  | _ => if truthy args then [args] else []
  end.

(** Arrays are the same in [h] and [h']. *)
Definition arrays_same (h h' : heap) : Prop :=
  forall a es, h' !! a = Some (OArray es) <-> h !! a = Some (OArray es).

(** The store after the parser hook, if any, has seen the task data. *)
Definition parsed (cfg : config) (taskData : value) (h : heap) : heap :=
  match _parser cfg with
  | Some parser => parser taskData h
  | None => h
  end.

(** What a method that hands [e] to [error] and then answers [null] completes
    with, and the notifications recorded once it has. *)
Definition sink (cfg : config) (e : exn) : completion value :=
  if _strict cfg then Throw e else Normal VNull.

Definition reported (cfg : config) (n : list exn) (e : exn) : list exn :=
  if _strict cfg then n else if _notify cfg then n ++ [e] else n.

(** The store after the parser hook and the normalisation steps. *)
Definition normalized (cfg : config) (taskData : value) (σ : state) : heap :=
  st_heap (snd (normalize taskData (with_heap σ (parsed cfg taskData (st_heap σ))))).

(** The length of the chain of previous errors an exception wraps. *)
Fixpoint exn_depth (e : exn) : nat :=
  match e with
  | TaskRunnerException _ (Some previous) => S (exn_depth previous)
  | _ => 0
  end.

(** Settled promises of [h] are still in [h'], at the same address. *)
Definition keeps_promises (h h' : heap) : Prop :=
  forall l s, h !! l = Some (OPromise s) -> h' !! l = Some (OPromise s).

(** Values that are not objects. *)
Definition primitive (v : value) : bool :=
  match v with
  | VUndef | VNull | VBool _ | VNum _ | VStr _ => true
  | VFun _ | VObjProto | VRef _ => false
  end.

(** What the design document asks of the two collaborators of [Task]: the
    clone of a plain object is a new plain object and the store is otherwise
    as it was ("clone must be independent of the source"); merged into such a
    clone, a primitive value of the changes ends up in it ("later values
    win"). *)
Definition clone_is_fresh (cloneObject : heap -> value -> heap * value) : Prop :=
  forall h v, isPojo h v = true ->
    exists ext lc, cloneObject h v = (h ++ ext, VRef lc)
                   /\ isPojo (h ++ ext) (VRef lc) = true.

Definition later_values_win
    (cloneObject : heap -> value -> heap * value)
    (mergeObject : heap -> value -> value -> heap) : Prop :=
  forall h source changes k v,
    isPojo h source = true -> isPojo h changes = true ->
    k <> "__proto__" ->
    get_prop h changes k = Normal v -> primitive v = true -> truthy v = true ->
    let '(h', target) := cloneObject h source in
    get_prop (mergeObject h' target changes) target k = Normal v.

(** "Every non-sequence value [v] is wrapped into the single-element sequence
    [[v]]", said of the task data once the parser hook and the normalisation
    have run; an absent [args] reads [undefined]. *)
Definition wraps_every_non_sequence : Prop :=
  forall cfg h r n l d1,
    invalid_task h (VRef l) = false ->
    parsed cfg (VRef l) h !! l = Some d1 ->
    is_record d1 = true ->
    let args := obj_get d1 "args" in
    let h2 := normalized cfg (VRef l) (mkState h r n) in
    instanceof_Array (parsed cfg (VRef l) h) args = false ->
    args <> VUndef ->
    exists la, get_prop h2 (VRef l) "args" = Normal (VRef la)
               /\ h2 !! la = Some (OArray [args]).

End Frame.

(* ------------------------------------------------------------------------- *)
(** * A dispatcher with two task types                                        *)
(* ------------------------------------------------------------------------- *)

(** The scenario of the design document: a type [noop], a subclass of [Task]
    whose [run] resolves at once with [this.stats( {} )]; next to it a type
    [echo] whose [run] resolves with its first argument and a type [broken]
    whose constructor throws. *)
Module Scenario.
Import Js TaskRunner Frame.

(** [class Noop extends Task { async run() { return this.stats( {} ); } }],
    with the collaborators of the reference implementation; the clock reads
    100 when the task is constructed and 2000000350 when it has run. *)
Definition Noop_new (options : value) (h : heap) : constructed * heap :=
  match Task.new Task.clone_flat Task.merge_flat "s7r4nd" 100 h options VUndef with
  | Normal (h1, this) =>
      (Instance (fun _ h =>
                   match Task.stats this 2000000350 h VUndef with
                   | Normal (h2, data) => (Fulfilled data, h2)
                   | Throw e => (Rejected e, h)
                   | Fuel => (Rejected (TaskException "unreachable"), h)
                   end),
       h1)
  | Throw e => (ConstructThrows e, h)
  | Fuel => (ConstructThrows (TaskException "unreachable"), h)
  end.

(** [class Echo { async run( x ) { return x; } }] *)
Definition Echo_run (args : list value) (h : heap) : settled * heap :=
  (Fulfilled (default VUndef (args !! 0%nat)), h).

Definition env : host := {|
  host_new := fun c options h =>
    if String.eqb c "Noop" then Noop_new options h
    else if String.eqb c "Echo" then (Instance Echo_run, h)
    else (ConstructThrows (Thrown (VStr "boom")), h);
  host_to_string := fun _ => "[object Object]";
  host_fn_get := fun _ _ => VUndef
|}.

(** [new TaskRunner( false, notify )] and [new TaskRunner()] *)
Definition lenient : config := {| _strict := false; _notify := true; _parser := None |}.
Definition strict : config := {| _strict := true; _notify := false; _parser := None |}.

(** The dispatcher state after
    [register( 'noop', Noop ); register( 'echo', Echo );
     register( 'broken', Broken )]. *)
Definition registered (cfg : config) (h : heap) : state :=
  snd (register env cfg "broken" (VFun (User "Broken")) false
         (snd (register env cfg "echo" (VFun (User "Echo")) false
                 (snd (register env cfg "noop" (VFun (User "Noop")) false
                         (mkState h no_types [])))))).

End Scenario.

(* ------------------------------------------------------------------------- *)
(** * Further vocabulary: construction, invariants, well-behaved callees      *)
(* ------------------------------------------------------------------------- *)

Module Setup.
Import Js TaskRunner Frame.

(** <<
    constructor( strict = true, notify = null, taskParser = null ) {
        this._strict = strict;
        this._notify = notify;
        this._parser = taskParser;
        this._types = {};
    }
    >>
    The configuration and the registry of a new dispatcher.  A parameter
    takes its default when the argument is [undefined]; [this._strict] is
    only ever tested for truthiness. *)
Definition constructor (strict : value) (notify : bool)
    (taskParser : option (value -> heap -> heap)) : config * registry :=
  ({| _strict := truthy (match strict with VUndef => VBool true | _ => strict end);
      _notify := notify;
      _parser := taskParser |},
   no_types).

(** The method [m] leaves the component [f] of the state as it was. *)
Definition preserves {X A} (f : state -> X) (m : M A) : Prop :=
  forall σ, f (snd (m σ)) = f σ.

(** A stand-in for [this.run] whose promise settles as [g] says of the
    argument, and which leaves the state as it was. *)
Definition settling (g : value -> settled) : value -> M value :=
  fun v σ =>
    (match g v with Fulfilled x => Normal x | Rejected e => Throw e end, σ).

(** The reason of the first rejection of a list of settled promises, and the
    values of those fulfilled before it. *)
Fixpoint first_rejection (ss : list settled) : option exn :=
  match ss with
  | [] => None
  | Fulfilled _ :: rest => first_rejection rest
  | Rejected e :: _ => Some e
  end.

Fixpoint fulfilled_prefix (ss : list settled) : list value :=
  match ss with
  | Fulfilled v :: rest => v :: fulfilled_prefix rest
  | _ => []
  end.

(** The copy [cloneObject] makes of a plain object carries its primitive
    values. *)
Definition clone_copies (cloneObject : heap -> value -> heap * value) : Prop :=
  forall h v k x,
    isPojo h v = true -> get_prop h v k = Normal x -> primitive x = true ->
    let '(h', o) := cloneObject h v in get_prop h' o k = Normal x.

(** User code that leaves the existing objects of the store as they are: the
    constructor of the class named [c] and the [run] method of its instances
    may create objects, and change no object that is there when they are
    called. *)
Definition class_keeps_objects (env : host) (c : string) : Prop :=
  forall opts h,
    extends_but [] h (snd (host_new env c opts h))
    /\ match fst (host_new env c opts h) with
       | Instance task_run =>
           forall args hx, extends_but [] hx (snd (task_run args hx))
       | ConstructThrows _ => True
       end.

(** <<
    class C extends Task {
        constructor( runner, options ) { super( runner, options, defaults ); }
        run( ...args ) { ... }
    }
    >>
    What [new C( runner, options )] gives: the constructor of the base class
    runs on the options it is given, and [run_of this] is the [run] method of
    the instance.  A class without a constructor of its own passes no
    [defaults]. *)
Definition extends_Task
    (cloneObject : heap -> value -> heap * value)
    (mergeObject : heap -> value -> value -> heap)
    (fresh_id : string) (now : N) (defaults : value)
    (run_of : Task.t -> list value -> heap -> settled * heap)
    (options : value) (h : heap) : constructed * heap :=
  match Task.new cloneObject mergeObject fresh_id now h options defaults with
  | Normal (h1, this) => (Instance (run_of this), h1)
  | Throw e => (ConstructThrows e, h)
  | Fuel => (ConstructThrows (TaskException "unreachable"), h)
  end.

(** The end of [task], once the task is constructed and its [run] method is
    [task_run]:
    <<
        try {
            stats = await task.run( ...taskData.args );
        } catch ( e ) {
            this.error( new TaskRunnerException( 'Failed to run task: ' + taskData.type, e ) );
            return null;
        }
        return stats;
    >> *)
Definition run_constructed (env : host) (cfg : config)
    (task_run : list value -> heap -> settled * heap) (taskData : value) : M value :=
  try_catch
    (let* args := getp taskData "args" in
     let* xs := lift (fun h => spread h args) in
     fun σ =>
       match task_run xs (st_heap σ) with
       | (Fulfilled v, h1) => (Normal v, with_heap σ h1)
       | (Rejected e, h1) => (Throw e, with_heap σ h1)
       end)
    (fun e => fault env cfg "Failed to run task: " taskData (Some e)).

End Setup.

(* ------------------------------------------------------------------------- *)
(** * A second dispatcher: a parser hook and the base class as a type         *)
(* ------------------------------------------------------------------------- *)

Module Cases.
Import Js TaskRunner Frame.


(** The host of the scenario with one more function: the class [Task] itself,
    whose [run] is the one of the base class. *)
Definition Task_new (options : value) (h : heap) : constructed * heap :=
  match Task.new Task.clone_flat Task.merge_flat "s7r4nd" 100 h options VUndef with
  | Normal (h1, this) => (Instance (Task.run this), h1)
  | Throw e => (ConstructThrows e, h)
  | Fuel => (ConstructThrows (TaskException "unreachable"), h)
  end.

Definition env : host := {|
  host_new := fun c options h =>
    if String.eqb c "Task" then Task_new options h
    else host_new Scenario.env c options h;
  host_to_string := host_to_string Scenario.env;
  host_fn_get := host_fn_get Scenario.env
|}.

(** The dispatcher state after [register( 'base', Task )] and the
    registrations of the scenario. *)
Definition registered (cfg : config) (h : heap) : state :=
  snd (register env cfg "base" (VFun (User "Task")) false (Scenario.registered cfg h)).

End Cases.

(* ------------------------------------------------------------------------- *)
(** * Properties                                                              *)
(* ------------------------------------------------------------------------- *)

Import Js Frame TaskRunner.

(** ** Property lists and objects *)

Lemma assoc_get_set_eq ps k v : assoc_get (assoc_set ps k v) k = Some v.
Proof.
  induction ps as [|[k' v'] ps IH]; simpl.
  - by rewrite String.eqb_refl.
  - destruct (String.eqb k' k) eqn:E; simpl; rewrite E; auto.
Qed.

Lemma assoc_get_set_ne ps k k' v :
  k <> k' -> assoc_get (assoc_set ps k v) k' = assoc_get ps k'.
Proof.
  intros Hne. induction ps as [|[k0 v0] ps IH]; simpl.
  - destruct (String.eqb k k') eqn:E; [apply String.eqb_eq in E; congruence | done].
  - destruct (String.eqb k0 k) eqn:E; simpl.
    + apply String.eqb_eq in E; subst k0.
      destruct (String.eqb k k') eqn:E'; [apply String.eqb_eq in E'; congruence | done].
    + destruct (String.eqb k0 k'); auto.
Qed.

Lemma pojo_get_set_eq ps k v :
  k <> "__proto__" -> pojo_get (pojo_set ps k v) k = v.
Proof.
  intros Hk. unfold pojo_get, pojo_set.
  destruct (assoc_get ps k) eqn:E.
  - by rewrite assoc_get_set_eq.
  - destruct (String.eqb k "__proto__") eqn:E'; [apply String.eqb_eq in E'; congruence|].
    by rewrite assoc_get_set_eq.
Qed.

Lemma pojo_set_own_ne ps k k' v :
  k <> k' -> assoc_get (pojo_set ps k v) k' = assoc_get ps k'.
Proof.
  intros Hne. unfold pojo_set.
  destruct (assoc_get ps k); [by apply assoc_get_set_ne|].
  destruct (String.eqb k "__proto__"); [done | by apply assoc_get_set_ne].
Qed.

Lemma obj_get_set_eq o k v :
  is_record o = true -> k <> "__proto__" -> obj_get (obj_set o k v) k = v.
Proof.
  destruct o; simpl; try discriminate; intros _ Hk.
  - by apply pojo_get_set_eq.
  - by rewrite assoc_get_set_eq.
Qed.

Lemma obj_get_set_ne o k k' v : k <> k' -> obj_get (obj_set o k v) k' = obj_get o k'.
Proof.
  intros Hne. destruct o; simpl; try done.
  - unfold pojo_get. by rewrite pojo_set_own_ne.
  - by rewrite assoc_get_set_ne.
Qed.

Lemma is_record_set o k v : is_record (obj_set o k v) = is_record o.
Proof. by destruct o. Qed.

Lemma same_but_set o k v ks : In k ks -> same_but ks o (obj_set o k v).
Proof.
  intros Hin. destruct o; simpl; auto; intros k' Hk'.
  - apply pojo_set_own_ne. intros ->. auto.
  - apply assoc_get_set_ne. intros ->. auto.
Qed.

Lemma same_but_refl ks o : same_but ks o o.
Proof. destruct o; simpl; auto. Qed.

Lemma same_but_trans ks o1 o2 o3 :
  same_but ks o1 o2 -> same_but ks o2 o3 -> same_but ks o1 o3.
Proof.
  destruct o1, o2; simpl; try tauto; destruct o3; simpl; try tauto;
    try congruence; intros H1 H2 k Hk; rewrite H2, H1; auto.
Qed.

Lemma same_but_mono ks ks' o o' :
  (forall k, In k ks -> In k ks') -> same_but ks o o' -> same_but ks' o o'.
Proof.
  intros Hsub. destruct o, o'; simpl; auto; intros H k Hk; apply H; auto.
Qed.

Lemma same_but_record ks o o' : same_but ks o o' -> is_record o' = is_record o.
Proof. destruct o, o'; simpl; tauto. Qed.

Lemma same_but_get ks o o' k :
  same_but ks o o' -> ~ In k ks -> obj_get o' k = obj_get o k.
Proof.
  destruct o, o'; simpl; try tauto.
  - intros H Hk. unfold pojo_get. by rewrite H.
  - intros -> _. done.
  - intros H Hk. by rewrite H.
Qed.

(** ** The store *)

Lemma extends_but_refl ks h : extends_but ks h h.
Proof. intros l o Hl. exists o. split; [done | apply same_but_refl]. Qed.

Lemma extends_but_trans ks h1 h2 h3 :
  extends_but ks h1 h2 -> extends_but ks h2 h3 -> extends_but ks h1 h3.
Proof.
  intros H12 H23 l o Hl.
  destruct (H12 l o Hl) as (o2 & Hl2 & Hs2).
  destruct (H23 l o2 Hl2) as (o3 & Hl3 & Hs3).
  exists o3. split; [done | by eapply same_but_trans].
Qed.

Lemma extends_but_mono ks ks' h h' :
  (forall k, In k ks -> In k ks') -> extends_but ks h h' -> extends_but ks' h h'.
Proof.
  intros Hsub H l o Hl. destruct (H l o Hl) as (o' & Hl' & Hs).
  exists o'. split; [done | by eapply same_but_mono].
Qed.

Lemma extends_but_alloc ks h o : extends_but ks h (fst (alloc h o)).
Proof.
  intros l o' Hl. exists o'. split; [|apply same_but_refl].
  simpl. by apply lookup_app_l_Some.
Qed.

Lemma extends_but_set ks h l o k v :
  h !! l = Some o -> In k ks -> extends_but ks h (<[l := obj_set o k v]> h).
Proof.
  intros Hl Hin l' o' Hl'.
  destruct (decide (l' = l)) as [->|Hne].
  - exists (obj_set o k v). split.
    + apply list_lookup_insert_eq. by eapply lookup_lt_Some.
    + rewrite Hl in Hl'. injection Hl' as <-. by apply same_but_set.
  - exists o'. split; [|apply same_but_refl].
    rewrite list_lookup_insert_ne; [done | congruence].
Qed.

Lemma extends_but_get ks h h' l o k :
  extends_but ks h h' -> h !! l = Some o -> ~ In k ks ->
  get_prop h' (VRef l) k = get_prop h (VRef l) k.
Proof.
  intros H Hl Hk. destruct (H l o Hl) as (o' & Hl' & Hs).
  simpl. rewrite Hl, Hl'. f_equal. by eapply same_but_get.
Qed.

Lemma extends_but_array ks h h' l es :
  extends_but ks h h' -> h !! l = Some (OArray es) -> h' !! l = Some (OArray es).
Proof.
  intros H Hl. destruct (H l _ Hl) as (o' & Hl' & Hs).
  destruct o'; simpl in Hs; try tauto. by subst.
Qed.

Lemma extends_but_isPojo ks h h' v :
  extends_but ks h h' -> isPojo h v = true -> isPojo h' v = true.
Proof.
  intros H. destruct v; simpl; try done.
  destruct (h !! l) as [o|] eqn:Hl; [|done].
  destruct (H l o Hl) as (o' & -> & Hs).
  destruct o, o'; simpl in Hs; try tauto; done.
Qed.

Lemma extends_nothing_get h h' l o k :
  extends_but [] h h' -> h !! l = Some o -> get_prop h' (VRef l) k = get_prop h (VRef l) k.
Proof. intros H Hl. eapply extends_but_get; eauto. Qed.

Lemma extends_but_app ks h ext : extends_but ks h (h ++ ext).
Proof.
  intros l o Hl. exists o. split; [by apply lookup_app_l_Some | apply same_but_refl].
Qed.

Lemma isPojo_inv h v : isPojo h v = true -> exists l ps, v = VRef l /\ h !! l = Some (OPojo ps).
Proof.
  destruct v; simpl; try done. destruct (h !! l) as [[]|] eqn:E; try done. eauto.
Qed.

Lemma extends_but_length ks h h' : extends_but ks h h' -> length h <= length h'.
Proof.
  intros H. destruct (decide (length h <= length h')) as [|Hgt]; [done|].
  destruct (lookup_lt_is_Some_2 h (length h')) as [o Ho]; [lia|].
  destruct (H _ _ Ho) as (o' & Ho' & _).
  apply lookup_lt_Some in Ho'. lia.
Qed.

Lemma arrays_same_refl h : arrays_same h h.
Proof. by intros a es. Qed.

Lemma arrays_same_trans h1 h2 h3 :
  arrays_same h1 h2 -> arrays_same h2 h3 -> arrays_same h1 h3.
Proof. intros H12 H23 a es. etransitivity; [apply H23 | apply H12]. Qed.

Lemma arrays_same_alloc h o :
  (forall es, o <> OArray es) -> arrays_same h (fst (alloc h o)).
Proof.
  intros Ho a es. simpl. split.
  - intros Ha. destruct (decide (a < length h)) as [Hlt|Hge].
    + by rewrite lookup_app_l in Ha.
    + rewrite lookup_app_r in Ha by lia.
      destruct (a - length h) as [|n]; simpl in Ha; [|done].
      injection Ha as ->. by destruct (Ho es).
  - intros Ha. by apply lookup_app_l_Some.
Qed.

Lemma arrays_same_set h l o k v :
  h !! l = Some o -> arrays_same h (<[l := obj_set o k v]> h).
Proof.
  intros Hl a es. destruct (decide (a = l)) as [->|Hne].
  - rewrite list_lookup_insert_eq by (by eapply lookup_lt_Some). rewrite Hl.
    destruct o; simpl; split; congruence.
  - rewrite list_lookup_insert_ne by congruence. done.
Qed.

Lemma arrays_same_instanceof h h' v :
  arrays_same h h' -> instanceof_Array h' v = instanceof_Array h v.
Proof.
  intros H. destruct v; simpl; try done.
  destruct (h' !! l) as [[]|] eqn:E'; destruct (h !! l) as [[]|] eqn:E; try done;
    first [ apply H in E'; congruence | apply H in E; congruence ].
Qed.

Lemma arrays_same_args_elems h h' v :
  arrays_same h h' -> args_elems h' v = args_elems h v.
Proof.
  intros H. destruct v; simpl; try done.
  destruct (h' !! l) as [[]|] eqn:E'; destruct (h !! l) as [[]|] eqn:E; try done;
    first [ apply H in E'; congruence | apply H in E; congruence ].
Qed.

(** ** The normalisation steps of [task] *)

Lemma args_elems_non_sequence h args :
  instanceof_Array h args = false ->
  args_elems h args = if truthy args then [args] else [].
Proof.
  destruct args; simpl; try done. by destruct (h !! l) as [[]|].
Qed.

Lemma ensure_options_spec h r n l d :
  h !! l = Some d -> is_record d = true ->
  exists h' lo,
    ensure_options (VRef l) (mkState h r n) = (Normal tt, mkState h' r n)
    /\ extends_but ["options"] h h'
    /\ arrays_same h h'
    /\ get_prop h' (VRef l) "options" = Normal (VRef lo)
    /\ isPojo h' (VRef lo) = true
    /\ (if isPojo h (obj_get d "options")
        then h' = h /\ obj_get d "options" = VRef lo
        else lo = length h /\ h' !! lo = Some (OPojo [])).
Proof.
  intros Hl Hrec. unfold ensure_options, bind, getp, lift, test. cbn.
  rewrite Hl.
  destruct (isPojo h (obj_get d "options")) eqn:Hp; cbn.
  - destruct (obj_get d "options") as [| | | | | | |lo] eqn:Ho; try discriminate.
    exists h, lo. split_and!; try done.
    + apply extends_but_refl.
    + by rewrite Hl, Ho.
  - unfold setp, new_obj. cbn.
    assert (Hl' : (h ++ [OPojo []]) !! l = Some d) by (by apply lookup_app_l_Some).
    rewrite Hl'.
    assert (Hlt : l < length h) by (by eapply lookup_lt_Some).
    eexists _, (length h). split; [reflexivity|].
    split_and!.
    + eapply extends_but_trans; [apply (extends_but_alloc _ _ (OPojo []))|].
      apply extends_but_set; [done | by left].
    + eapply arrays_same_trans; [apply (arrays_same_alloc _ (OPojo [])); done|].
      by apply arrays_same_set.
    + cbn. rewrite list_lookup_insert_eq by (rewrite length_app; simpl; lia).
      by rewrite obj_get_set_eq.
    + cbn. rewrite list_lookup_insert_ne by lia.
      rewrite lookup_app_r by lia. by rewrite Nat.sub_diag.
    + done.
    + rewrite list_lookup_insert_ne by lia.
      rewrite lookup_app_r by lia. by rewrite Nat.sub_diag.
Qed.

Lemma inject_id_spec h r n l d lo :
  h !! l = Some d -> obj_get d "options" = VRef lo -> isPojo h (VRef lo) = true ->
  exists h',
    inject_id (VRef l) (mkState h r n) = (Normal tt, mkState h' r n)
    /\ extends_but ["id"] h h'
    /\ arrays_same h h'
    /\ (if truthy (obj_get d "id")
        then get_prop h' (VRef lo) "id" = Normal (obj_get d "id")
        else h' = h).
Proof.
  intros Hl Ho Hp. unfold inject_id, bind, getp, lift. cbn. rewrite Hl.
  destruct (truthy (obj_get d "id")) eqn:Ht; cbn.
  - rewrite Hl, Ho. unfold setp. cbn.
    simpl in Hp. destruct (h !! lo) as [o|] eqn:Hlo; [|done].
    exists (<[lo := obj_set o "id" (obj_get d "id")]> h). split_and!; try done.
    + apply extends_but_set; [done | by left].
    + by apply arrays_same_set.
    + cbn. rewrite list_lookup_insert_eq by (by eapply lookup_lt_Some).
      rewrite obj_get_set_eq; try done. by destruct o.
  - exists h. split_and!; try done. apply extends_but_refl.
Qed.

Lemma ensure_args_spec h r n l d :
  h !! l = Some d -> is_record d = true ->
  exists h' la,
    ensure_args (VRef l) (mkState h r n) = (Normal tt, mkState h' r n)
    /\ extends_but ["args"] h h'
    /\ get_prop h' (VRef l) "args" = Normal (VRef la)
    /\ h' !! la = Some (OArray (args_elems h (obj_get d "args")))
    /\ (if instanceof_Array h (obj_get d "args")
        then h' = h /\ obj_get d "args" = VRef la
        else la = length h).
Proof.
  intros Hl Hrec. unfold ensure_args, bind, getp, lift, test. cbn. rewrite Hl.
  destruct (instanceof_Array h (obj_get d "args")) eqn:Ha; cbn.
  - destruct (obj_get d "args") as [| | | | | | |la] eqn:Hargs; try discriminate.
    simpl in Ha. destruct (h !! la) as [[]|] eqn:Hla; try discriminate.
    exists h, la. split_and!; try done.
    + apply extends_but_refl.
    + by rewrite Hl, Hargs.
    + simpl. by rewrite Hla.
  - unfold setp, new_obj. cbn.
    set (es := if truthy (obj_get d "args") then [obj_get d "args"] else []).
    assert (Hl' : (h ++ [OArray es]) !! l = Some d) by (by apply lookup_app_l_Some).
    rewrite Hl'.
    assert (Hlt : l < length h) by (by eapply lookup_lt_Some).
    eexists _, (length h). split; [reflexivity|]. split_and!.
    + eapply extends_but_trans; [apply (extends_but_alloc _ _ (OArray es))|].
      apply extends_but_set; [done | by left].
    + cbn. rewrite list_lookup_insert_eq by (rewrite length_app; simpl; lia).
      by rewrite obj_get_set_eq.
    + rewrite list_lookup_insert_ne by lia.
      rewrite lookup_app_r by lia. rewrite Nat.sub_diag. simpl. do 2 f_equal.
      subst es. destruct (obj_get d "args") as [| | | | | | |la]; try done.
      simpl in *. destruct (h !! la) as [[]|]; done.
    + done.
Qed.

Lemma normalize_spec h r n l d :
  h !! l = Some d -> is_record d = true ->
  exists h' lo la,
    normalize (VRef l) (mkState h r n) = (Normal tt, mkState h' r n)
    /\ extends_but ["options"; "id"; "args"] h h'
    /\ get_prop h' (VRef l) "options" = Normal (VRef lo)
    /\ isPojo h' (VRef lo) = true
    /\ (if isPojo h (obj_get d "options")
        then obj_get d "options" = VRef lo else lo = length h)
    /\ (truthy (obj_get d "id") = true ->
        get_prop h' (VRef lo) "id" = Normal (obj_get d "id"))
    /\ get_prop h' (VRef l) "args" = Normal (VRef la)
    /\ h' !! la = Some (OArray (args_elems h (obj_get d "args")))
    /\ (if instanceof_Array h (obj_get d "args")
        then obj_get d "args" = VRef la else h !! la = None).
Proof.
  intros Hl Hrec.
  destruct (ensure_options_spec h r n l d Hl Hrec)
    as (ha & lo & E1 & X1 & A1 & O1 & P1 & C1).
  destruct (X1 l d Hl) as (da & Hla & Sa).
  assert (Hoa : obj_get da "options" = VRef lo).
  { simpl in O1. rewrite Hla in O1. congruence. }
  destruct (inject_id_spec ha r n l da lo Hla Hoa P1) as (hb & E2 & X2 & A2 & I2).
  destruct (X2 l da Hla) as (db & Hlb & Sb).
  assert (Hrb : is_record db = true).
  { rewrite (same_but_record _ _ _ Sb), (same_but_record _ _ _ Sa). done. }
  destruct (ensure_args_spec hb r n l db Hlb Hrb) as (h' & la & E3 & X3 & G3 & L3 & C3).
  assert (Hid : obj_get da "id" = obj_get d "id").
  { eapply same_but_get; [done|]. simpl. intros [?|[]]. done. }
  assert (Hargs : obj_get db "args" = obj_get d "args").
  { rewrite (same_but_get _ _ _ "args" Sb), (same_but_get _ _ _ "args" Sa); try done;
      simpl; intros [?|[]]; done. }
  assert (Hob : obj_get db "options" = VRef lo).
  { rewrite (same_but_get _ _ _ "options" Sb); [done|]. simpl. intros [?|[]]. done. }
  assert (Pb : isPojo hb (VRef lo) = true) by (by eapply extends_but_isPojo).
  exists h', lo, la. split_and!.
  - unfold normalize, bind. rewrite E1, E2, E3. done.
  - eapply extends_but_trans; [|eapply extends_but_trans].
    + eapply extends_but_mono; [|exact X1]. simpl. tauto.
    + eapply extends_but_mono; [|exact X2]. simpl. tauto.
    + eapply extends_but_mono; [|exact X3]. simpl. tauto.
  - rewrite (extends_but_get _ _ _ _ _ "options" X3 Hlb).
    + simpl. by rewrite Hlb, Hob.
    + simpl. intros [?|[]]. done.
  - by eapply extends_but_isPojo.
  - destruct (isPojo h (obj_get d "options")); tauto.
  - intros Ht. rewrite Hid, Ht in I2.
    simpl in Pb. destruct (hb !! lo) as [ob|] eqn:Hlob; [|done].
    rewrite (extends_but_get _ _ _ _ _ "id" X3 Hlob); [done|].
    simpl. intros [?|[]]. done.
  - done.
  - rewrite L3, Hargs. do 2 f_equal. apply arrays_same_args_elems.
    by eapply arrays_same_trans.
  - rewrite Hargs in C3.
    rewrite (arrays_same_instanceof h hb) in C3 by (by eapply arrays_same_trans).
    destruct (instanceof_Array h (obj_get d "args")); [tauto|].
    subst la. apply lookup_ge_None.
    apply extends_but_length in X1, X2. lia.
Qed.

(** ** The steps of [task] around the normalisation *)

Section TaskFacts.
Variable env : host.
Variable cfg : config.

Lemma parse_eq v h r n :
  parse cfg v (mkState h r n) = (Normal tt, mkState (parsed cfg v h) r n).
Proof. unfold parse, parsed. by destruct (_parser cfg). Qed.

Lemma error_eq e h r n :
  (error cfg e ;;; ret VNull) (mkState h r n)
  = (sink cfg e, mkState h r (reported cfg n e)).
Proof.
  unfold error, sink, reported, bind, ret, throw.
  destruct (_strict cfg); [done|]. by destruct (_notify cfg).
Qed.

Lemma fault_eq prefix l previous h r n ty :
  get_prop h (VRef l) "type" = Normal ty ->
  fault env cfg prefix (VRef l) previous (mkState h r n)
  = (sink cfg (TaskRunnerException (prefix ++ to_str env ty) previous),
     mkState h r (reported cfg n (TaskRunnerException (prefix ++ to_str env ty) previous))).
Proof.
  intros Hty. unfold fault, getp, lift. unfold bind at 1. cbn [st_heap].
  rewrite Hty. apply error_eq.
Qed.

Lemma invalid_task_false h v :
  invalid_task h v = false ->
  exists l d s, v = VRef l /\ h !! l = Some d /\ is_record d = true
                /\ obj_get d "type" = VStr s /\ s <> "".
Proof.
  unfold invalid_task. intros H.
  apply orb_false_iff in H as [H H3]. apply orb_false_iff in H as [H1 H2].
  destruct v; try (vm_compute in H2; discriminate); try (vm_compute in H1; discriminate).
  simpl in H3. destruct (h !! l) as [d|] eqn:Hl; [|discriminate].
    destruct (obj_get d "type") eqn:Ht; try discriminate.
  exists l, d, s. split_and!; try done.
  - destruct d; try done; simpl in Ht; discriminate.
  - intros ->. discriminate.
Qed.

Lemma task_valid self_run v h r n :
  invalid_task h v = false ->
  task env cfg self_run v (mkState h r n)
  = (normalize v ;;; construct_and_run env cfg self_run v) (mkState (parsed cfg v h) r n).
Proof.
  intros Hv. unfold task, test. unfold bind at 1. cbn [st_heap]. rewrite Hv.
  unfold bind at 1. rewrite parse_eq. done.
Qed.

Lemma construct_and_run_unknown self_run l h r n ty :
  get_prop h (VRef l) "type" = Normal ty ->
  truthy (types_get (host_fn_get env) r (to_str env ty)) = false ->
  construct_and_run env cfg self_run (VRef l) (mkState h r n)
  = (sink cfg (TaskRunnerException ("Unknown task type: " ++ to_str env ty) None),
     mkState h r (reported cfg n (TaskRunnerException ("Unknown task type: " ++ to_str env ty) None))).
Proof.
  intros Hty Hk. unfold construct_and_run, getp, lift, getTaskConstructor.
  unfold bind at 1. cbn [st_heap]. rewrite Hty.
  unfold bind at 1. cbn [_types]. rewrite Hk. cbn [truthy negb].
  by apply fault_eq.
Qed.

Lemma construct_and_run_throws self_run l h r n ty c opts e h' ty' :
  get_prop h (VRef l) "type" = Normal ty ->
  types_get (host_fn_get env) r (to_str env ty) = VFun (User c) ->
  get_prop h (VRef l) "options" = Normal opts ->
  host_new env c opts h = (ConstructThrows e, h') ->
  get_prop h' (VRef l) "type" = Normal ty' ->
  construct_and_run env cfg self_run (VRef l) (mkState h r n)
  = (sink cfg (TaskRunnerException ("Failed to construct task: " ++ to_str env ty') (Some e)),
     mkState h' r
       (reported cfg n (TaskRunnerException ("Failed to construct task: " ++ to_str env ty') (Some e)))).
Proof.
  intros Hty Hk Ho Hnew Hty'. unfold construct_and_run, getp, lift, getTaskConstructor.
  unfold bind at 1. cbn [st_heap]. rewrite Hty.
  unfold bind at 1. cbn [_types]. rewrite Hk. cbn [truthy negb].
  unfold bind at 1. cbn [st_heap]. rewrite Ho. cbn [new_task st_heap]. rewrite Hnew.
  cbn [with_heap st_heap _types notified].
  by apply fault_eq.
Qed.

Lemma construct_and_run_runs self_run l h r n ty c opts task_run h' la es :
  get_prop h (VRef l) "type" = Normal ty ->
  types_get (host_fn_get env) r (to_str env ty) = VFun (User c) ->
  get_prop h (VRef l) "options" = Normal opts ->
  host_new env c opts h = (Instance task_run, h') ->
  get_prop h' (VRef l) "args" = Normal (VRef la) ->
  h' !! la = Some (OArray es) ->
  construct_and_run env cfg self_run (VRef l) (mkState h r n)
  = match task_run es h' with
    | (Fulfilled v, h'') => (Normal v, mkState h'' r n)
    | (Rejected e, h'') => fault env cfg "Failed to run task: " (VRef l) (Some e) (mkState h'' r n)
    end.
Proof.
  intros Hty Hk Ho Hnew Ha Hes. unfold construct_and_run, getp, lift, getTaskConstructor.
  unfold bind at 1. cbn [st_heap]. rewrite Hty.
  unfold bind at 1. cbn [_types]. rewrite Hk. cbn [truthy negb].
  unfold bind at 1. cbn [st_heap]. rewrite Ho. cbn [new_task st_heap]. rewrite Hnew.
  cbn [with_heap st_heap _types notified].
  unfold try_catch, bind. cbn [with_heap st_heap _types notified].
  rewrite Ha. cbn [spread]. rewrite Hes.
  destruct (task_run es h') as [[v|e] h'']; done.
Qed.

End TaskFacts.

Lemma wrapping_is_not_wrapped msg e : TaskRunnerException msg (Some e) <> e.
Proof. intros H. apply (f_equal exn_depth) in H. simpl in H. lia. Qed.

Section TaskSteps.
Variable env : host.
Variable cfg : config.

Lemma task_steps self_run h r n l d1 :
  invalid_task h (VRef l) = false ->
  parsed cfg (VRef l) h !! l = Some d1 ->
  is_record d1 = true ->
  let h1 := parsed cfg (VRef l) h in
  let h2 := normalized cfg (VRef l) (mkState h r n) in
  task env cfg self_run (VRef l) (mkState h r n)
  = construct_and_run env cfg self_run (VRef l) (mkState h2 r n)
  /\ extends_but ["options"; "id"; "args"] h1 h2
  /\ get_prop h2 (VRef l) "type" = Normal (obj_get d1 "type")
  /\ exists lo la,
       get_prop h2 (VRef l) "options" = Normal (VRef lo)
       /\ isPojo h2 (VRef lo) = true
       /\ (if isPojo h1 (obj_get d1 "options")
           then obj_get d1 "options" = VRef lo else lo = length h1)
       /\ (truthy (obj_get d1 "id") = true ->
           get_prop h2 (VRef lo) "id" = Normal (obj_get d1 "id"))
       /\ get_prop h2 (VRef l) "args" = Normal (VRef la)
       /\ h2 !! la = Some (OArray (args_elems h1 (obj_get d1 "args")))
       /\ (if instanceof_Array h1 (obj_get d1 "args")
           then obj_get d1 "args" = VRef la else h1 !! la = None).
Proof.
  intros Hv Hl Hrec h1 h2.
  destruct (normalize_spec h1 r n l d1 Hl Hrec)
    as (h' & lo & la & E & X & O & P & Co & I & A & L & Ca).
  assert (Hh : h2 = h').
  { subst h2. unfold normalized, with_heap. cbn [st_heap _types notified]. fold h1. by rewrite E. }
  rewrite Hh. split_and!.
  - rewrite task_valid by done. fold h1. unfold bind at 1. by rewrite E.
  - done.
  - rewrite (extends_but_get _ _ _ _ _ "type" X Hl); [by simpl; unfold h1; rewrite Hl|].
    simpl. intros [?|[?|[?|[]]]]; done.
  - exists lo, la. split_and!; done.
Qed.

End TaskSteps.

(** ** The router and the two containers *)

(** C1 (the code departs from the claim).  [run] does not route by shape: the
    first test of its body reads [taskMap], a name that is bound nowhere (the
    parameter is [taskInput]), so the call rejects with a [ReferenceError]
    for every input, in every configuration, and leaves the state as it
    was. *)
Theorem run_rejects_every_input env cfg fuel taskInput σ :
  run env cfg (S fuel) taskInput σ
  = (Throw (ReferenceError "taskMap is not defined"), σ).
Proof. reflexivity. Qed.

(** The earlier revision routes, the other way round: arrays go to [parallel],
    plain objects with a truthy [type] to [task], the other plain objects to
    [sequence]. *)
Lemma earlier_run_array cfg par seq tsk h r n l es :
  h !! l = Some (OArray es) ->
  EarlierRevision.run cfg par seq tsk (VRef l) (mkState h r n) = par (VRef l) (mkState h r n).
Proof.
  intros Hl. unfold EarlierRevision.run, test, bind. cbn. by rewrite Hl.
Qed.


Lemma earlier_run_untyped_map cfg par seq tsk h r n l ps :
  h !! l = Some (OPojo ps) -> truthy (pojo_get ps "type") = false ->
  EarlierRevision.run cfg par seq tsk (VRef l) (mkState h r n) = seq (VRef l) (mkState h r n).
Proof.
  intros Hl Ht. unfold EarlierRevision.run, test, bind, getp, lift. cbn -[pojo_get].
  repeat (rewrite Hl; cbn -[pojo_get]). by rewrite Ht.
Qed.

(** The two revisions of [task] agree on every object. *)
Lemma earlier_task_agrees env cfg self_run v σ :
  truthy v = true -> typeof v = "object" ->
  EarlierRevision.task env cfg self_run v σ = task env cfg self_run v σ.
Proof.
  intros Ht Ho. destruct v; try discriminate.
  - reflexivity.
  - unfold EarlierRevision.task, task, test, getp, lift, invalid_task.
    unfold bind, fault, getp, lift. cbn [st_heap get_prop truthy typeof negb orb].
    change (String.eqb "object" "object") with true. cbn [negb orb].
    cbv beta. destruct (st_heap σ !! l) as [o|]; [destruct (obj_get o "type")|]; reflexivity.
Qed.

(** C3 (the code departs from the claim).  On an array that is not empty
    [sequence] returns no sequence of results: its first [await this.run( ... )]
    rejects, because [run] rejects for every input, and [sequence] rejects
    with it, having created the empty result array and nothing else.  (On a
    value that is not an array it does as claimed, see
    [sequence_invalid].) *)
Theorem sequence_rejects_nonempty env cfg fuel k h r n l x xs :
  h !! l = Some (OArray (x :: xs)) ->
  sequence cfg (S k) (run env cfg (S fuel)) (VRef l) (mkState h r n)
  = (Throw (ReferenceError "taskMap is not defined"), mkState (h ++ [OArray []]) r n).
Proof.
  intros Hl. unfold sequence, test, bind, new_obj. cbn. rewrite Hl. cbn.
  rewrite (lookup_app_l_Some _ _ _ _ Hl). cbn. done.
Qed.

(** On a value that is not an array [sequence] hands an "Invalid sequence
    type" fault to [error] and, when [error] returns, answers a new empty
    array. *)
Lemma sequence_invalid cfg fuel self_run v h r n :
  instanceof_Array h v = false ->
  sequence cfg fuel self_run v (mkState h r n)
  = let e := TaskRunnerException ("Invalid sequence type: " ++ typeof v) None in
    if _strict cfg then (Throw e, mkState h r n)
    else (Normal (VRef (length h)), mkState (h ++ [OArray []]) r (reported cfg n e)).
Proof.
  intros Hv. unfold sequence, test, bind, error, reported, new_obj, throw, ret. cbn. rewrite Hv. cbn.
  destruct (_strict cfg); [done|]. by destruct (_notify cfg).
Qed.

Lemma keeps_promises_set h ls k x :
  keeps_promises h (match h !! ls with Some o => <[ls := obj_set o k x]> h | None => h end).
Proof.
  intros l s Hl. destruct (h !! ls) as [o|] eqn:Hls; [|done].
  destruct (decide (l = ls)) as [->|Hne].
  - rewrite list_lookup_insert_eq by (by eapply lookup_lt_Some).
    rewrite Hl in Hls. by injection Hls as <-.
  - by rewrite list_lookup_insert_ne by congruence.
Qed.

Lemma parallel_loop_rejected env cfg fuel ls entries h r n :
  exists tasks h',
    parallel_loop (run env cfg (S fuel)) (VRef ls) entries (mkState h r n)
    = (Normal tasks, mkState h' r n)
    /\ keeps_promises h h'
    /\ match entries with
       | [] => tasks = []
       | _ :: _ =>
           exists rest, tasks = VRef (length h) :: rest
             /\ h' !! length h = Some (OPromise (Rejected (ReferenceError "taskMap is not defined")))
       end.
Proof.
  revert h. induction entries as [|[k v] entries IH]; intros h.
  - exists [], h. split_and!; try done. by intros l s Hl.
  - set (e := ReferenceError "taskMap is not defined").
    set (h1 := h ++ [OPromise (Rejected e)]).
    set (h2 := match h1 !! ls with
               | Some o => <[ls := obj_set o k (VRef (length h))]> h1
               | None => h1
               end).
    destruct (IH h2) as (tasks & h' & E & K & _).
    exists (VRef (length h) :: tasks), h'. split_and!.
    + cbn [parallel_loop]. unfold bind at 1.
      unfold start.
      change (run env cfg (S fuel) v (mkState h r n))
        with (@Throw value (ReferenceError "taskMap is not defined"), mkState h r n).
      cbn [new_obj alloc st_heap with_heap _types notified].
      unfold bind at 1. unfold setp. cbn [set_prop st_heap with_heap _types notified].
      unfold bind at 1. cbn [with_heap st_heap _types notified].
      change (parallel_loop (run env cfg (S fuel)) (VRef ls) entries _)
        with (parallel_loop (run env cfg (S fuel)) (VRef ls) entries (mkState h2 r n)).
      rewrite E. done.
    + intros l s Hl. apply K. apply keeps_promises_set.
      by apply lookup_app_l_Some.
    + exists tasks. split; [done|]. apply K. apply keeps_promises_set.
      subst h1. rewrite lookup_app_r by lia. by rewrite Nat.sub_diag.
Qed.

(** C2 (the code departs from the claim).  On a plain object without a string
    [type] and with at least one entry, [parallel] returns no mapping: every
    call of [run] it starts rejects, and so does its
    [await Promise.all( tasks )].  (And were the calls to succeed, the values
    of the mapping would be their promises, see
    [parallel_answers_promises].) *)
Theorem parallel_rejects_nonempty env cfg fuel h r n l k v rest :
  h !! l = Some (OPojo ((k, v) :: rest)) ->
  typeof (pojo_get ((k, v) :: rest) "type") <> "string" ->
  exists h',
    parallel cfg (run env cfg (S fuel)) (VRef l) (mkState h r n)
    = (Throw (ReferenceError "taskMap is not defined"), mkState h' r n).
Proof.
  intros Hl Hty.
  destruct (parallel_loop_rejected env cfg fuel (length h) ((k, v) :: rest)
              (h ++ [OPojo []]) r n) as (tasks & h' & E & K & rest' & -> & Hp).
  exists h'. unfold parallel, test, getp, lift.
  unfold bind at 1. cbn [st_heap isPojo]. rewrite Hl.
  unfold bind at 1. cbn [negb]. unfold bind at 1. cbn [st_heap get_prop]. rewrite Hl.
  cbn [obj_get ret].
  destruct (String.eqb (typeof (pojo_get ((k, v) :: rest) "type")) "string") eqn:Es.
  { apply String.eqb_eq in Es. done. }
  unfold bind at 1. cbn [new_obj alloc st_heap with_heap _types notified].
  unfold bind at 1. cbn [st_heap with_heap _types notified Object_entries].
  rewrite (lookup_app_l_Some _ _ _ _ Hl).
  unfold bind at 1. unfold with_heap. cbn [st_heap _types notified]. rewrite E.
  unfold bind at 1. cbn [await_all]. unfold bind at 1. unfold await. cbn [st_heap].
  by rewrite Hp.
Qed.

Lemma parallel_rejects_nonempty_witness :
  let h := [OPojo [("a", VRef 1)]; OPojo [("type", VStr "noop")]] in
  fst (parallel Scenario.lenient (run Scenario.env Scenario.lenient 1) (VRef 0)
         (Scenario.registered Scenario.lenient h))
  = Throw (ReferenceError "taskMap is not defined").
Proof.
  intros h.
  destruct (parallel_rejects_nonempty Scenario.env Scenario.lenient 0 h
              (_types (Scenario.registered Scenario.lenient h)) [] 0
              "a" (VRef 1) []) as [h' E]; [reflexivity | discriminate |].
  exact (f_equal fst E).
Defined.

Lemma sequence_rejects_nonempty_witness :
  let h := [OArray [VRef 1]; OPojo [("type", VStr "noop")]] in
  fst (sequence Scenario.lenient 1 (run Scenario.env Scenario.lenient 1) (VRef 0)
         (Scenario.registered Scenario.lenient h))
  = Throw (ReferenceError "taskMap is not defined").
Proof.
  intros h.
  exact (f_equal fst
           (sequence_rejects_nonempty Scenario.env Scenario.lenient 0 0 h
              (_types (Scenario.registered Scenario.lenient h)) [] 0 (VRef 1) []
              eq_refl)).
Defined.

(** With [task] in the place of the router, [parallel] answers a mapping whose
    values are the promises of the calls, not their results. *)
Example parallel_answers_promises :
  let h := [OPojo [("a", VRef 1)]; OPojo [("type", VStr "echo"); ("args", VNum 7)]] in
  let r := parallel Scenario.lenient
             (task Scenario.env Scenario.lenient (run Scenario.env Scenario.lenient 1))
             (VRef 0) (Scenario.registered Scenario.lenient h) in
  fst r = Normal (VRef 2)
  /\ st_heap (snd r) !! 2%nat = Some (OPojo [("a", VRef 5)])
  /\ st_heap (snd r) !! 5%nat = Some (OPromise (Fulfilled (VNum 7))).
Proof. vm_compute. done. Qed.

(** With [task] in the place of the router, the scenario of the design
    document: the results of a sequence mirror the positions of the input
    and the second carries the identity [x]. *)
Example sequence_of_two_noops :
  let h := [OArray [VRef 1; VRef 2];
            OPojo [("type", VStr "noop")];
            OPojo [("type", VStr "noop"); ("id", VStr "x")]] in
  let r := sequence Scenario.lenient 3
             (task Scenario.env Scenario.lenient (run Scenario.env Scenario.lenient 1))
             (VRef 0) (Scenario.registered Scenario.lenient h) in
  exists s a b,
    fst r = Normal (VRef s)
    /\ st_heap (snd r) !! s = Some (OArray [VRef a; VRef b])
    /\ get_prop (st_heap (snd r)) (VRef a) "id" = Normal (VStr "s7r4nd")
    /\ get_prop (st_heap (snd r)) (VRef b) "id" = Normal (VStr "x")
    /\ notified (snd r) = [].
Proof. vm_compute. eexists _, _, _. split_and!; reflexivity. Qed.

(** ** The registry *)

Lemma types_get_set_eq fn_get r k f :
  types_get fn_get (types_set r k (VFun f)) k = VFun f.
Proof.
  unfold types_get, types_set.
  destruct (assoc_get (types_own r) k) eqn:E; cbn [types_own types_proto].
  - by rewrite assoc_get_set_eq.
  - destruct (String.eqb k "__proto__") eqn:Ek; cbn [types_own types_proto].
    + by rewrite E.
    + by rewrite assoc_get_set_eq.
Qed.

Lemma typeof_function v : typeof v = "function" -> exists f, v = VFun f.
Proof. destruct v; try discriminate. eauto. Qed.



(** ** The leaf primitive [task] *)

Section Faults.
Variable env : host.
Variable cfg : config.

(** When the registry answers nothing truthy for the type, [task] hands an
    "Unknown task type" fault to [error] and answers [null]; the registry is
    as it was. *)
Lemma task_unknown_type self_run h r n l d1 :
  invalid_task h (VRef l) = false ->
  parsed cfg (VRef l) h !! l = Some d1 ->
  is_record d1 = true ->
  truthy (types_get (host_fn_get env) r (to_str env (obj_get d1 "type"))) = false ->
  let unknown :=
    TaskRunnerException ("Unknown task type: " ++ to_str env (obj_get d1 "type")) None in
  task env cfg self_run (VRef l) (mkState h r n)
  = (if _strict cfg then Throw unknown else Normal VNull,
     mkState (normalized cfg (VRef l) (mkState h r n)) r
       (if _strict cfg then n else if _notify cfg then n ++ [unknown] else n)).
Proof.
  intros Hv Hl Hrec Hk unknown.
  destruct (task_steps env cfg self_run h r n l d1 Hv Hl Hrec) as (E & _ & Hty & _).
  rewrite E. by apply construct_and_run_unknown.
Qed.

(** C6.  When the constructor registered for the type throws [e], [task]
    hands to [error] a "Failed to construct task" exception whose previous
    error is [e]: in strict mode that exception, not [e], is what [task]
    rejects with; otherwise [task] resolves to [null], and the exception is
    what the notification callback, if any, has received. *)
Theorem construction_fault_is_wrapped self_run h r n l d1 c opts e h3 ty :
  invalid_task h (VRef l) = false ->
  parsed cfg (VRef l) h !! l = Some d1 ->
  is_record d1 = true ->
  types_get (host_fn_get env) r (to_str env (obj_get d1 "type")) = VFun (User c) ->
  let h2 := normalized cfg (VRef l) (mkState h r n) in
  get_prop h2 (VRef l) "options" = Normal opts ->
  host_new env c opts h2 = (ConstructThrows e, h3) ->
  get_prop h3 (VRef l) "type" = Normal ty ->
  let wrapping :=
    TaskRunnerException ("Failed to construct task: " ++ to_str env ty) (Some e) in
  task env cfg self_run (VRef l) (mkState h r n)
  = (if _strict cfg then Throw wrapping else Normal VNull,
     mkState h3 r (if _strict cfg then n else if _notify cfg then n ++ [wrapping] else n))
  /\ wrapping <> e.
Proof.
  intros Hv Hl Hrec Hk h2 Ho Hnew Hty wrapping.
  destruct (task_steps env cfg self_run h r n l d1 Hv Hl Hrec) as (E & _ & Hty2 & _).
  split; [|apply wrapping_is_not_wrapped].
  rewrite E. by eapply construct_and_run_throws.
Qed.

End Faults.

(** C5 (the code departs from the claim).  A type that was never registered
    but names a property every object inherits is not reported as unknown:
    on a new dispatcher, [this._types[ 'toString' ]] is the built-in method,
    [getTaskConstructor] answers it, [new] fails on it and the fault [task]
    reports is "Failed to construct task".  [task] still resolves to [null]
    and leaves the registry as it was. *)
Theorem inherited_name_is_not_unknown env self_run :
  task env Scenario.lenient self_run (VRef 0)
    (mkState [OPojo [("type", VStr "toString")]] no_types [])
  = (Normal VNull,
     mkState [OPojo [("type", VStr "toString"); ("options", VRef 1); ("args", VRef 2)];
              OPojo []; OArray []]
       no_types
       [TaskRunnerException "Failed to construct task: toString"
          (Some (TypeError "TaskConstructor is not a constructor"))]).
Proof. reflexivity. Qed.

Lemma construction_fault_is_wrapped_witness :
  let h := [OPojo [("type", VStr "broken"); ("options", VNum 3)]] in
  let wrapping :=
    TaskRunnerException "Failed to construct task: broken" (Some (Thrown (VStr "boom"))) in
  fst (task Scenario.env Scenario.lenient (run Scenario.env Scenario.lenient 1) (VRef 0)
         (Scenario.registered Scenario.lenient h)) = Normal VNull
  /\ notified (snd (task Scenario.env Scenario.lenient (run Scenario.env Scenario.lenient 1)
                      (VRef 0) (Scenario.registered Scenario.lenient h))) = [wrapping]
  /\ fst (task Scenario.env Scenario.strict (run Scenario.env Scenario.strict 1) (VRef 0)
            (Scenario.registered Scenario.strict h)) = Throw wrapping.
Proof.
  intros h wrapping.
  pose (h3 := [OPojo [("type", VStr "broken"); ("options", VRef 1); ("args", VRef 2)];
               OPojo []; OArray []]).
  destruct (construction_fault_is_wrapped Scenario.env Scenario.lenient
              (run Scenario.env Scenario.lenient 1) h
              (_types (Scenario.registered Scenario.lenient h)) [] 0
              (OPojo [("type", VStr "broken"); ("options", VNum 3)])
              "Broken" (VRef 1) (Thrown (VStr "boom")) h3 (VStr "broken"))
    as [E _]; try reflexivity.
  destruct (construction_fault_is_wrapped Scenario.env Scenario.strict
              (run Scenario.env Scenario.strict 1) h
              (_types (Scenario.registered Scenario.strict h)) [] 0
              (OPojo [("type", VStr "broken"); ("options", VNum 3)])
              "Broken" (VRef 1) (Thrown (VStr "boom")) h3 (VStr "broken"))
    as [E' _]; try reflexivity.
  split_and!.
  - exact (f_equal fst E).
  - exact (f_equal (fun x => notified (snd x)) E).
  - exact (f_equal fst E').
Defined.

(** C7, as it is worded, fails: [args: 0] becomes [[]], not [[0]]. *)
Lemma args_zero_is_not_wrapped : ~ wraps_every_non_sequence.
Proof.
  intros H.
  destruct (H Scenario.lenient [OPojo [("type", VStr "noop"); ("args", VNum 0)]]
              no_types [] 0 (OPojo [("type", VStr "noop"); ("args", VNum 0)]))
    as (la & Ha & Hla); try reflexivity; try discriminate.
  vm_compute in Ha. injection Ha as <-. vm_compute in Hla. discriminate.
Qed.

Section Arguments.
Variable env : host.
Variable cfg : config.

(** C7, amended.  By the time [run] is invoked, [args] is an array: an array
    is kept as it is; a value that is not an array is replaced by [[v]] when
    it is truthy and by [[]] when it is not ([undefined], [null], [false],
    [0], the empty string); the elements of that array are the arguments
    [run] receives.  The constructor of the task is taken to leave the
    existing objects of the store as they are. *)
Theorem args_are_a_sequence self_run h r n l d1 c opts task_run h3 :
  invalid_task h (VRef l) = false ->
  parsed cfg (VRef l) h !! l = Some d1 ->
  is_record d1 = true ->
  types_get (host_fn_get env) r (to_str env (obj_get d1 "type")) = VFun (User c) ->
  let h1 := parsed cfg (VRef l) h in
  let h2 := normalized cfg (VRef l) (mkState h r n) in
  let args := obj_get d1 "args" in
  get_prop h2 (VRef l) "options" = Normal opts ->
  host_new env c opts h2 = (Instance task_run, h3) ->
  extends_but [] h2 h3 ->
  (exists la, get_prop h3 (VRef l) "args" = Normal (VRef la)
              /\ h3 !! la = Some (OArray (args_elems h1 args))
              /\ (instanceof_Array h1 args = true -> args = VRef la))
  /\ (instanceof_Array h1 args = false ->
      args_elems h1 args = if truthy args then [args] else [])
  /\ task env cfg self_run (VRef l) (mkState h r n)
     = match task_run (args_elems h1 args) h3 with
       | (Fulfilled v, h4) => (Normal v, mkState h4 r n)
       | (Rejected e, h4) =>
           fault env cfg "Failed to run task: " (VRef l) (Some e) (mkState h4 r n)
       end.
Proof.
  intros Hv Hl Hrec Hk h1 h2 args Ho Hnew Hx.
  destruct (task_steps env cfg self_run h r n l d1 Hv Hl Hrec)
    as (E & X & Hty & lo & la & O & P & Co & I & A & L & Ca).
  fold h1 h2 in E, X, Hty, O, P, Co, I, A, L, Ca.
  destruct (X l d1 Hl) as (d2 & Hl2 & _).
  assert (A3 : get_prop h3 (VRef l) "args" = Normal (VRef la)).
  { by rewrite (extends_nothing_get _ _ _ _ _ Hx Hl2). }
  assert (L3 : h3 !! la = Some (OArray (args_elems h1 args))).
  { by eapply extends_but_array. }
  split_and!.
  - exists la. split_and!; try done.
    intros Ha. fold args in Ca. by rewrite Ha in Ca.
  - apply args_elems_non_sequence.
  - rewrite E.
    exact (construct_and_run_runs env cfg self_run l h2 r n _ c opts task_run h3 la _
             Hty Hk Ho Hnew A3 L3).
Qed.

End Arguments.

Lemma args_are_a_sequence_witness :
  let h := [OPojo [("type", VStr "echo"); ("args", VNum 5)]] in
  let σ := Scenario.registered Scenario.lenient h in
  let σ' := snd (task Scenario.env Scenario.lenient (run Scenario.env Scenario.lenient 1) (VRef 0) σ) in
  get_prop (st_heap σ') (VRef 0) "args" = Normal (VRef 2)
  /\ st_heap σ' !! 2%nat = Some (OArray [VNum 5])
  /\ fst (task Scenario.env Scenario.lenient (run Scenario.env Scenario.lenient 1) (VRef 0) σ)
     = Normal (VNum 5).
Proof.
  intros h σ σ'.
  pose (h2 := [OPojo [("type", VStr "echo"); ("args", VRef 2); ("options", VRef 1)];
               OPojo []; OArray [VNum 5]]).
  destruct (args_are_a_sequence Scenario.env Scenario.lenient
              (run Scenario.env Scenario.lenient 1) h (_types σ) [] 0
              (OPojo [("type", VStr "echo"); ("args", VNum 5)])
              "Echo" (VRef 1) Scenario.Echo_run h2)
    as ((la & A & L & _) & _ & E); try reflexivity.
  { apply extends_but_refl. }
  split_and!.
  - reflexivity.
  - reflexivity.
  - exact (f_equal fst E).
Defined.

Section InPlace.
Variable env : host.
Variable cfg : config.

Lemma fault_keeps_store prefix l previous h r n :
  st_heap (snd (fault env cfg prefix (VRef l) previous (mkState h r n))) = h.
Proof.
  assert (Hty : exists ty, get_prop h (VRef l) "type" = Normal ty) by (simpl; eauto).
  destruct Hty as [ty Hty]. by rewrite (fault_eq env cfg prefix l previous h r n ty Hty).
Qed.

(** What follows the normalisation changes no object of the store, when the
    constructor that is found and the [run] method of its instances change
    none. *)
Lemma construct_and_run_keeps_objects fuel l h r n :
  (forall c, types_get (host_fn_get env) r
               (to_str env (match h !! l with Some o => obj_get o "type" | None => VUndef end))
             = VFun (User c) ->
             Setup.class_keeps_objects env c) ->
  extends_but [] h
    (st_heap (snd (construct_and_run env cfg (run env cfg (S fuel)) (VRef l) (mkState h r n)))).
Proof.
  intros Hk.
  assert (Hf : forall prefix previous hh, extends_but [] h hh ->
             extends_but [] h
               (st_heap (snd (fault env cfg prefix (VRef l) previous (mkState hh r n))))).
  { intros prefix previous hh Hx. by rewrite fault_keeps_store. }
  pose proof (extends_but_refl [] h) as Hrefl.
  unfold construct_and_run, getp, lift, getTaskConstructor.
  unfold bind at 1. cbn [st_heap get_prop].
  unfold bind at 1. cbn [_types].
  match goal with |- context [types_get ?a ?b ?c] => remember (types_get a b c) as C eqn:EC end.
  destruct (truthy C) eqn:ET; [|cbn [truthy negb]; by apply Hf].
  rewrite ET. cbn [negb].
  unfold bind at 1. cbn [st_heap get_prop].
  match goal with |- context [new_task _ _ _ ?o] => set (opts := o) end.
  assert (Hcaught : forall (g : list value -> M value) hh,
             extends_but [] h hh ->
             (forall args hx, exists c hy, g args (mkState hx r n) = (c, mkState hy r n)
                                            /\ extends_but [] hx hy) ->
             extends_but [] h
               (st_heap (snd (try_catch
                 (let* args := (fun σ => (get_prop (st_heap σ) (VRef l) "args", σ)) in
                  let* xs := (fun σ => (spread (st_heap σ) args, σ)) in g xs)
                 (fun e => fault env cfg "Failed to run task: " (VRef l) (Some e))
                 (mkState hh r n))))).
  { intros g hh Hx Hg. unfold try_catch, bind. cbn [st_heap get_prop].
    destruct (spread hh _) as [xs|e|] eqn:Es; [|by apply Hf|done].
    destruct (Hg xs hh) as (c & hy & -> & Hxy).
    assert (Hhy : extends_but [] h hy) by (eapply extends_but_trans; eauto).
    destruct c as [v|e|]; [done|by apply Hf|done]. }
  destruct C as [| | | | |[name|c]| |]; cbn [new_task]; unfold throw; try (by apply Hf).
  - destruct (String.eqb name "Object"); [|by apply Hf].
    unfold ret. apply Hcaught; [done|]. intros args hx. eexists _, hx.
    split; [reflexivity|apply extends_but_refl].
  - cbn [st_heap]. destruct (Hk c eq_refl opts h) as [Hn Hr].
    destruct (host_new env c opts h) as [[task_run|e] h'] eqn:E;
      unfold with_heap; cbn [st_heap _types notified fst snd] in *; [|by apply Hf].
    apply Hcaught; [done|]. intros args hx. cbn [st_heap]. specialize (Hr args hx).
    destruct (task_run args hx) as [[v|e] h1]; eexists _, h1; split; try reflexivity; done.
Qed.

(** C10.  [task] normalises the object it is given, at its address.  When the
    constructor registered for the type and the [run] method of its instances
    change no object of the store, then after [task( descriptor )] the
    caller's object differs from what the parser hook left by [options], [id]
    and [args] at most; its [options] is a plain object (a new one when it
    was none), carrying the [id] of the descriptor when that is truthy; its
    [args] is an array holding the normalised arguments (a new one when it
    was none).  This holds of the store [task] leaves, whatever the outcome:
    a result, a fault reported, a fault thrown. *)
Theorem descriptor_is_mutated_in_place fuel h r n l d1 :
  invalid_task h (VRef l) = false ->
  parsed cfg (VRef l) h !! l = Some d1 ->
  is_record d1 = true ->
  (forall c, types_get (host_fn_get env) r (to_str env (obj_get d1 "type")) = VFun (User c) ->
             Setup.class_keeps_objects env c) ->
  let h1 := parsed cfg (VRef l) h in
  let h' := st_heap (snd (task env cfg (run env cfg (S fuel)) (VRef l) (mkState h r n))) in
  exists d' lo la,
    h' !! l = Some d' /\ same_but ["options"; "id"; "args"] d1 d'
    /\ obj_get d' "options" = VRef lo /\ isPojo h' (VRef lo) = true
    /\ (if isPojo h1 (obj_get d1 "options")
        then obj_get d1 "options" = VRef lo else h1 !! lo = None)
    /\ (truthy (obj_get d1 "id") = true ->
        get_prop h' (VRef lo) "id" = Normal (obj_get d1 "id"))
    /\ obj_get d' "args" = VRef la
    /\ h' !! la = Some (OArray (args_elems h1 (obj_get d1 "args")))
    /\ (if instanceof_Array h1 (obj_get d1 "args")
        then obj_get d1 "args" = VRef la else h1 !! la = None).
Proof.
  intros Hv Hl Hrec Hk h1 h'.
  destruct (task_steps env cfg (run env cfg (S fuel)) h r n l d1 Hv Hl Hrec)
    as (E & X & Hty & lo & la & O & P & Co & I & A & L & Ca).
  set (h2 := normalized cfg (VRef l) (mkState h r n)) in *.
  fold h1 in X, Co, L, Ca.
  destruct (X l d1 Hl) as (d2 & Hl2 & S2).
  assert (Hx : extends_but [] h2 h').
  { subst h'. rewrite E. apply construct_and_run_keeps_objects.
    intros c Hc. apply Hk. rewrite <- Hc. f_equal. f_equal.
    cbn [get_prop] in Hty. by injection Hty. }
  destruct (Hx l d2 Hl2) as (d' & Hl' & S').
  exists d', lo, la. split_and!.
  - done.
  - eapply same_but_trans; [exact S2|]. eapply same_but_mono; [|exact S']. simpl. tauto.
  - rewrite (same_but_get _ _ _ "options" S') by (simpl; tauto).
    simpl in O. rewrite Hl2 in O. congruence.
  - by eapply extends_but_isPojo.
  - destruct (isPojo h1 (obj_get d1 "options")); [done|]. subst lo. by apply lookup_ge_None.
  - intros Ht. specialize (I Ht).
    simpl in P. destruct (h2 !! lo) as [o|] eqn:Hlo; [|done].
    by rewrite (extends_nothing_get _ _ _ _ _ Hx Hlo).
  - rewrite (same_but_get _ _ _ "args" S') by (simpl; tauto).
    simpl in A. rewrite Hl2 in A. congruence.
  - by eapply extends_but_array.
  - done.
Qed.

End InPlace.

Lemma descriptor_is_mutated_in_place_witness :
  let h := [OPojo [("type", VStr "echo"); ("id", VStr "x"); ("options", VStr "fast");
                   ("args", VNum 5)]] in
  let σ := Scenario.registered Scenario.lenient h in
  st_heap (snd (task Scenario.env Scenario.lenient (run Scenario.env Scenario.lenient 1) (VRef 0) σ))
  = [OPojo [("type", VStr "echo"); ("id", VStr "x"); ("options", VRef 1); ("args", VRef 2)];
     OPojo [("id", VStr "x")];
     OArray [VNum 5]]
  /\ exists d' lo la,
       st_heap (snd (task Scenario.env Scenario.lenient (run Scenario.env Scenario.lenient 1)
                       (VRef 0) σ)) !! 0%nat = Some d'
       /\ obj_get d' "options" = VRef lo /\ obj_get d' "args" = VRef la.
Proof.
  intros h σ. split; [reflexivity|].
  destruct (descriptor_is_mutated_in_place Scenario.env Scenario.lenient
              0 h (_types σ) [] 0
              (OPojo [("type", VStr "echo"); ("id", VStr "x"); ("options", VStr "fast");
                      ("args", VNum 5)]))
    as (d' & lo & la & H0 & _ & Ho & _ & _ & _ & Ha & _); try reflexivity.
  { intros c Hc. vm_compute in Hc. injection Hc as <-.
    intros opts hx. split; [apply extends_but_refl|].
    intros args hy. apply extends_but_refl. }
  exists d', lo, la. split_and!; [exact H0 | exact Ho | exact Ha].
Defined.

(** ** The base class [Task] *)

Lemma stats_spec (this : Task.t) now h ld lo o :
  isPojo h (VRef ld) = true ->
  Task.options_ this = VRef lo ->
  h !! lo = Some o ->
  exists h',
    Task.stats this now h (VRef ld) = Normal (h', VRef ld)
    /\ get_prop h' (VRef ld) "id" = Normal (obj_get o "id")
    /\ get_prop h' (VRef ld) "time" = Normal (VRef (length h))
    /\ h' !! length h = Some (OArray (Task.elapsed (Task.timer this) now))
    /\ (forall l, l <> ld -> l < length h -> h' !! l = h !! l).
Proof.
  intros Hd Ho Hlo. simpl in Hd.
  destruct (h !! ld) as [od|] eqn:Hld; [|done].
  assert (Hrec : is_record od = true) by (by destruct od).
  assert (Hlt : ld < length h) by (by eapply lookup_lt_Some).
  unfold Task.stats, Task.Timer_end, Task.and_then. rewrite Ho. cbn [get_prop set_prop alloc].
  rewrite Hlo, Hld. cbn [fst snd].
  set (hA := <[ld := obj_set od "id" (obj_get o "id")]> h).
  assert (HA : (hA ++ [OArray (Task.elapsed (Task.timer this) now)]) !! ld
               = Some (obj_set od "id" (obj_get o "id"))).
  { apply lookup_app_l_Some. subst hA. by apply list_lookup_insert_eq. }
  rewrite HA. eexists. split; [reflexivity|].
  assert (Hlen : length hA = length h) by (subst hA; apply length_insert).
  rewrite Hlen. split_and!.
  - cbn [get_prop]. rewrite list_lookup_insert_eq by (rewrite length_app, Hlen; simpl; lia).
    rewrite obj_get_set_ne by done. rewrite obj_get_set_eq; done.
  - cbn [get_prop]. rewrite list_lookup_insert_eq by (rewrite length_app, Hlen; simpl; lia).
    rewrite obj_get_set_eq; try done. by rewrite is_record_set.
  - rewrite list_lookup_insert_ne by lia.
    rewrite lookup_app_r by lia. by rewrite Hlen, Nat.sub_diag.
  - intros l Hne Hl. rewrite list_lookup_insert_ne by congruence.
    rewrite lookup_app_l by lia. subst hA. by rewrite list_lookup_insert_ne by congruence.
Qed.

(** C8.  On a plain object [data], [stats( data )] returns [data] itself, its
    [id] set to [this._.id] and its [time] to the time elapsed since the
    timer of the task was created; two calls of [stats()] in a row return
    the same [id]. *)
Theorem stats_forces_id_and_time (this : Task.t) now h ld lo o :
  isPojo h (VRef ld) = true ->
  Task.options_ this = VRef lo ->
  h !! lo = Some o ->
  (exists h' lt,
     Task.stats this now h (VRef ld) = Normal (h', VRef ld)
     /\ get_prop h' (VRef ld) "id" = get_prop h (Task.options_ this) "id"
     /\ get_prop h' (VRef ld) "time" = Normal (VRef lt)
     /\ h' !! lt = Some (OArray (Task.elapsed (Task.timer this) now)))
  /\ (forall now1 now2, exists h1 d1 h2 d2 id,
        Task.stats this now1 h VUndef = Normal (h1, d1)
        /\ Task.stats this now2 h1 VUndef = Normal (h2, d2)
        /\ get_prop h1 d1 "id" = Normal id
        /\ get_prop h2 d2 "id" = Normal id).
Proof.
  intros Hd Ho Hlo. split.
  - destruct (stats_spec this now h ld lo o Hd Ho Hlo) as (h' & E & I & T & L & _).
    exists h', (length h). split_and!; try done.
    rewrite Ho. simpl. by rewrite Hlo.
  - intros now1 now2.
    assert (Hlt : lo < length h) by (by eapply lookup_lt_Some).
    destruct (stats_spec this now1 (h ++ [OPojo []]) (length h) lo o)
      as (h1 & E1 & I1 & _ & L1 & F1); try done.
    { simpl. rewrite lookup_app_r by lia. by rewrite Nat.sub_diag. }
    { by apply lookup_app_l_Some. }
    assert (Hlo1 : h1 !! lo = Some o).
    { rewrite F1; [by apply lookup_app_l_Some | lia | rewrite length_app; simpl; lia]. }
    destruct (stats_spec this now2 (h1 ++ [OPojo []]) (length h1) lo o)
      as (h2 & E2 & I2 & _); try done.
    { simpl. rewrite lookup_app_r by lia. by rewrite Nat.sub_diag. }
    { by apply lookup_app_l_Some. }
    exists h1, (VRef (length h)), h2, (VRef (length h1)), (obj_get o "id").
    split_and!; done.
Qed.

Lemma stats_forces_id_and_time_witness :
  let this := {| Task.timer := 100; Task._defaults := VRef 0; Task.options_ := VRef 1 |} in
  let h := [OPojo [("id", VStr "a")]; OPojo [("id", VStr "x")]; OPojo [("size", VNum 3)]] in
  exists h',
    Task.stats this 2000000350 h (VRef 2) = Normal (h', VRef 2)
    /\ h' !! 2%nat = Some (OPojo [("size", VNum 3); ("id", VStr "x"); ("time", VRef 3)])
    /\ h' !! 3%nat = Some (OArray [VNum 2; VNum 250]).
Proof.
  intros this h.
  destruct (stats_forces_id_and_time this 2000000350 h 2 1 (OPojo [("id", VStr "x")]))
    as [(h' & lt & E & _) _]; try reflexivity.
  exists h'. split; [exact E|].
  vm_compute in E. injection E as <-. split; reflexivity.
Defined.

Section TaskNew.
Variable cloneObject : heap -> value -> heap * value.
Variable mergeObject : heap -> value -> value -> heap.
Hypothesis clone_ok : clone_is_fresh cloneObject.
Hypothesis merge_ok : later_values_win cloneObject mergeObject.

(** [new Task( runner, options, defaults )] with a plain [defaults] *)
Lemma new_gives_options_id fresh_id now h lo po ld pd id :
  h !! lo = Some (OPojo po) -> pojo_get po "id" = id ->
  primitive id = true -> truthy id = true ->
  h !! ld = Some (OPojo pd) ->
  exists h3 this,
    Task.new cloneObject mergeObject fresh_id now h (VRef lo) (VRef ld) = Normal (h3, this)
    /\ get_prop h3 (Task.options_ this) "id" = Normal id.
Proof.
  intros Hlo Hid Hprim Ht Hld.
  unfold Task.new, Task.and_then. cbn [get_prop]. rewrite Hld. cbn [obj_get].
  set (hB := if negb (truthy (pojo_get pd "id"))
             then set_prop h (VRef ld) "id" (VStr fresh_id) else Normal h).
  assert (HB : exists h', hB = Normal h'
                 /\ isPojo h' (VRef ld) = true
                 /\ isPojo h' (VRef lo) = true
                 /\ get_prop h' (VRef lo) "id" = Normal id).
  { subst hB. destruct (truthy (pojo_get pd "id")) eqn:Etd; cbn [negb].
    - exists h. split_and!; try done; simpl; rewrite ?Hld, ?Hlo; try done. by rewrite <- Hid.
    - cbn [set_prop]. rewrite Hld. eexists. split; [reflexivity|].
      assert (Hne : lo <> ld).
      { intros ->. rewrite Hlo in Hld. injection Hld as <-. congruence. }
      split_and!; simpl.
      + rewrite list_lookup_insert_eq by (by eapply lookup_lt_Some). done.
      + rewrite list_lookup_insert_ne by congruence. by rewrite Hlo.
      + rewrite list_lookup_insert_ne by congruence. rewrite Hlo. simpl. congruence. }
  destruct HB as (h' & -> & Pd & Po & Io).
  pose proof (merge_ok h' (VRef ld) (VRef lo) "id" id Pd Po ltac:(done) Io Hprim Ht) as W.
  destruct (clone_ok h' (VRef ld) Pd) as (ext & lc & Ec & Pc).
  rewrite Ec in W |- *. cbn [truthy andb].
  assert (Po' : isPojo (h' ++ ext) (VRef lo) = true).
  { eapply extends_but_isPojo; [apply (extends_but_app [])|done]. }
  rewrite Po'. eexists _, _. split; [reflexivity|]. exact W.
Qed.

Lemma new_gives_options_id_default fresh_id now h lo po id :
  h !! lo = Some (OPojo po) -> pojo_get po "id" = id ->
  primitive id = true -> truthy id = true ->
  exists h3 this,
    Task.new cloneObject mergeObject fresh_id now h (VRef lo) VUndef = Normal (h3, this)
    /\ get_prop h3 (Task.options_ this) "id" = Normal id.
Proof.
  intros Hlo Hid Hprim Ht.
  destruct (new_gives_options_id fresh_id now (h ++ [OPojo []]) lo po (length h) [] id)
    as (h3 & this & E & I); try done.
  - by apply lookup_app_l_Some.
  - rewrite lookup_app_r by lia. by rewrite Nat.sub_diag.
  - exists h3, this. split; [|done]. rewrite <- E. reflexivity.
Qed.

End TaskNew.

Section Identity.
Variable env : host.
Variable cfg : config.

(** With a constructor found and an instance constructed, what follows the
    normalisation is the end of [task] on that instance. *)
Lemma construct_and_run_instance self_run l h r n ty c opts task_run h' :
  get_prop h (VRef l) "type" = Normal ty ->
  types_get (host_fn_get env) r (to_str env ty) = VFun (User c) ->
  get_prop h (VRef l) "options" = Normal opts ->
  host_new env c opts h = (Instance task_run, h') ->
  construct_and_run env cfg self_run (VRef l) (mkState h r n)
  = Setup.run_constructed env cfg task_run (VRef l) (mkState h' r n).
Proof.
  intros Hty Hk Ho Hnew. unfold construct_and_run, getp, lift, getTaskConstructor.
  unfold bind at 1. cbn [st_heap]. rewrite Hty.
  unfold bind at 1. cbn [_types]. rewrite Hk. cbn [truthy negb].
  unfold bind at 1. cbn [st_heap]. rewrite Ho. cbn [new_task st_heap]. rewrite Hnew.
  reflexivity.
Qed.

(** C9.  When the [id] of the task data is set (truthy: the test is
    [if ( taskData.id )]), the store in which [task] goes on to look the
    constructor up and call it has [taskData.options.id] equal to it,
    whatever [options] carried before.  When the constructor registered for
    the type is a class that extends [Task], the call [new TaskConstructor(
    this, taskData.options )] that [task] makes constructs, from those
    options and in that store, an instance whose effective id ([this._.id])
    is that [id], for an [id] that is a primitive value such as a string; and
    what [task] answers is what the [run] method of that instance gives. *)
Theorem id_is_injected_before_construction self_run cloneObject mergeObject h r n l d1 :
  clone_is_fresh cloneObject ->
  later_values_win cloneObject mergeObject ->
  invalid_task h (VRef l) = false ->
  parsed cfg (VRef l) h !! l = Some d1 ->
  is_record d1 = true ->
  let id := obj_get d1 "id" in
  truthy id = true ->
  let h2 := normalized cfg (VRef l) (mkState h r n) in
  exists lo,
    get_prop h2 (VRef l) "options" = Normal (VRef lo)
    /\ isPojo h2 (VRef lo) = true
    /\ get_prop h2 (VRef lo) "id" = Normal id
    /\ task env cfg self_run (VRef l) (mkState h r n)
       = construct_and_run env cfg self_run (VRef l) (mkState h2 r n)
    /\ (primitive id = true ->
        forall c fresh_id now defaults run_of,
          types_get (host_fn_get env) r (to_str env (obj_get d1 "type")) = VFun (User c) ->
          (forall options hx,
             host_new env c options hx
             = Setup.extends_Task cloneObject mergeObject fresh_id now defaults run_of
                 options hx) ->
          defaults = VUndef \/ isPojo h2 defaults = true ->
          exists h3 this,
            Task.new cloneObject mergeObject fresh_id now h2 (VRef lo) defaults
            = Normal (h3, this)
            /\ host_new env c (VRef lo) h2 = (Instance (run_of this), h3)
            /\ get_prop h3 (Task.options_ this) "id" = Normal id
            /\ task env cfg self_run (VRef l) (mkState h r n)
               = Setup.run_constructed env cfg (run_of this) (VRef l) (mkState h3 r n)).
Proof.
  intros Hc Hm Hv Hl Hrec id Ht h2.
  destruct (task_steps env cfg self_run h r n l d1 Hv Hl Hrec)
    as (E & X & Hty & lo & la & O & P & Co & I & A & L & Ca).
  exists lo. split_and!; try done.
  - by apply I.
  - intros Hprim c fresh_id now defaults run_of Hk Hclass Hd.
    destruct (isPojo_inv _ _ P) as (? & po & [= <-] & Hlo).
    assert (Hid : pojo_get po "id" = id).
    { specialize (I Ht). cbn [get_prop] in I. rewrite Hlo in I. cbn [obj_get] in I. unfold id. congruence. }
    assert (HT : exists h3 this,
               Task.new cloneObject mergeObject fresh_id now
                 (normalized cfg (VRef l) (mkState h r n)) (VRef lo) defaults
               = Normal (h3, this)
               /\ get_prop h3 (Task.options_ this) "id" = Normal id).
    { destruct Hd as [-> | Hd].
      - by eapply new_gives_options_id_default.
      - destruct (isPojo_inv _ _ Hd) as (ld & pd & -> & Hld).
        by eapply new_gives_options_id. }
    destruct HT as (h3 & this & ET & Eid).
    assert (Hnew : host_new env c (VRef lo) (normalized cfg (VRef l) (mkState h r n))
                   = (Instance (run_of this), h3)).
    { rewrite Hclass. unfold Setup.extends_Task. by rewrite ET. }
    exists h3, this. split_and!; try done.
    rewrite E.
    by apply (construct_and_run_instance self_run l _ r n (obj_get d1 "type") c (VRef lo)).
Qed.

End Identity.

Lemma clone_flat_is_fresh : clone_is_fresh Task.clone_flat.
Proof.
  intros h v Hv. destruct (isPojo_inv _ _ Hv) as (l & ps & -> & Hl).
  exists [OPojo ps], (length h). unfold Task.clone_flat. rewrite Hl. split; [done|].
  simpl. rewrite lookup_app_r by lia. by rewrite Nat.sub_diag.
Qed.

Lemma fold_set_get (ps : props) o k v :
  is_record o = true -> k <> "__proto__" -> assoc_get ps k = Some v ->
  obj_get (fold_right (fun '(k, v) o => obj_set o k v) o ps) k = v.
Proof.
  intros Hrec Hk. induction ps as [|[k0 v0] ps IH]; simpl; [done|].
  destruct (String.eqb k0 k) eqn:E.
  - apply String.eqb_eq in E. subst k0. intros [= ->].
    apply obj_get_set_eq; [|done].
    clear IH. induction ps as [|[k1 v1] ps IH]; simpl; [done|]. by rewrite is_record_set.
  - intros Hget. rewrite obj_get_set_ne; [auto|].
    intros ->. by rewrite String.eqb_refl in E.
Qed.

Lemma own_of_truthy_primitive ps k v :
  pojo_get ps k = v -> primitive v = true -> truthy v = true -> assoc_get ps k = Some v.
Proof.
  unfold pojo_get, Object_prototype_get. destruct (assoc_get ps k); [congruence|].
  repeat match goal with |- context [if ?b then _ else _] => destruct b end;
    intros <-; discriminate.
Qed.

Lemma merge_flat_wins h target changes k v :
  isPojo h target = true -> isPojo h changes = true ->
  k <> "__proto__" ->
  get_prop h changes k = Normal v -> primitive v = true -> truthy v = true ->
  get_prop (Task.merge_flat h target changes) target k = Normal v.
Proof.
  intros Ht Hc Hk Hget Hprim Htr.
  destruct (isPojo_inv _ _ Ht) as (lt & pt & -> & Hlt).
  destruct (isPojo_inv _ _ Hc) as (lc & pc & -> & Hlc).
  unfold Task.merge_flat. rewrite Hlt. cbn [Object_entries]. rewrite Hlc.
  cbn [get_prop]. rewrite list_lookup_insert_eq by (by eapply lookup_lt_Some).
  f_equal. apply fold_set_get; try done.
  apply own_of_truthy_primitive; try done.
  simpl in Hget. rewrite Hlc in Hget. simpl in Hget. congruence.
Qed.

Lemma merge_flat_later_values_win : later_values_win Task.clone_flat Task.merge_flat.
Proof.
  intros h source changes k v Hs Hc Hk Hget Hprim Htr.
  destruct (clone_flat_is_fresh h source Hs) as (ext & lc & -> & Pc).
  apply merge_flat_wins; try done.
  - eapply extends_but_isPojo; [apply (extends_but_app [])|done].
  - destruct (isPojo_inv _ _ Hc) as (l & ps & -> & Hl).
    rewrite <- Hget. simpl. by rewrite (lookup_app_l_Some _ _ _ _ Hl), Hl.
Qed.

Lemma id_is_injected_before_construction_witness :
  let h := [OPojo [("type", VStr "noop"); ("id", VStr "x"); ("options", VRef 1)];
            OPojo [("id", VStr "old"); ("size", VNum 3)]] in
  let σ := Scenario.registered Scenario.lenient h in
  let h2 := normalized Scenario.lenient (VRef 0) σ in
  let answer := task Scenario.env Scenario.lenient (run Scenario.env Scenario.lenient 1) (VRef 0) σ in
  let run_of := fun (this : Task.t) (_ : list value) (hx : heap) =>
                  match Task.stats this 2000000350 hx VUndef with
                  | Normal (h2, data) => (Fulfilled data, h2)
                  | Throw e => (Rejected e, hx)
                  | Fuel => (Rejected (TaskException "unreachable"), hx)
                  end in
  get_prop h2 (VRef 1) "id" = Normal (VStr "x")
  /\ (exists h3 this,
        host_new Scenario.env "Noop" (VRef 1) h2 = (Instance (run_of this), h3)
        /\ get_prop h3 (Task.options_ this) "id" = Normal (VStr "x")
        /\ answer
           = Setup.run_constructed Scenario.env Scenario.lenient (run_of this) (VRef 0)
               (mkState h3 (_types σ) []))
  /\ fst answer = Normal (VRef 5)
  /\ get_prop (st_heap (snd answer)) (VRef 5) "id" = Normal (VStr "x").
Proof.
  intros h σ h2 answer run_of.
  destruct (id_is_injected_before_construction Scenario.env Scenario.lenient
              (run Scenario.env Scenario.lenient 1) Task.clone_flat Task.merge_flat
              h (_types σ) [] 0
              (OPojo [("type", VStr "noop"); ("id", VStr "x"); ("options", VRef 1)])
              clone_flat_is_fresh merge_flat_later_values_win)
    as (lo & O & _ & I & _ & T); try reflexivity.
  vm_compute in O. injection O as <-.
  split; [exact I|]. split; [|split; reflexivity].
  destruct (T eq_refl "Noop" "s7r4nd" 100%N VUndef run_of)
    as (h3 & this & _ & Hn & Hi & Ha); [reflexivity | reflexivity | by left |].
  exists h3, this. split_and!; [exact Hn | exact Hi | exact Ha].
Defined.

(* ------------------------------------------------------------------------- *)
(** * Further properties of the dispatcher and of the base class             *)
(* ------------------------------------------------------------------------- *)

Import Setup.

(** ** More on the registry *)

Lemma types_get_set_ne fn_get r k k' v :
  k <> "__proto__" -> k <> k' ->
  types_get fn_get (types_set r k v) k' = types_get fn_get r k'.
Proof.
  intros Hp Hne. unfold types_get, types_set.
  destruct (assoc_get (types_own r) k); cbn [types_own types_proto].
  - by rewrite assoc_get_set_ne.
  - destruct (String.eqb k "__proto__") eqn:E; [apply String.eqb_eq in E; done|].
    cbn [types_own types_proto]. by rewrite assoc_get_set_ne.
Qed.

Section Registry.
Variable env : host.
Variable cfg : config.

(** X1.  [register] with something that is not callable hands a "Task
    constructor must be a constructor" fault to [error] (thrown in strict
    mode, notified otherwise), whatever [replace] says, and changes neither
    the registry nor the store. *)
Theorem register_rejects_non_callable name TaskConstructor replace h r n :
  typeof TaskConstructor <> "function" ->
  let fault := TaskRunnerException ("Task constructor must be a constructor: " ++ name) None in
  register env cfg name TaskConstructor replace (mkState h r n)
  = (if _strict cfg then Throw fault else Normal tt, mkState h r (reported cfg n fault)).
Proof.
  intros Hf fault. unfold register.
  destruct (String.eqb (typeof TaskConstructor) "function") eqn:E.
  { apply String.eqb_eq in E. done. }
  cbn [negb]. unfold error, reported, throw, ret.
  destruct (_strict cfg); [done|]. by destruct (_notify cfg).
Qed.

(** X2.  In a registry that inherits from [Object.prototype] (nothing was
    registered under [__proto__]), when [getTaskConstructor( name )] answers
    [null], registering a callable under [name] succeeds in every mode,
    notifies nothing and leaves the store as it was; [getTaskConstructor(
    name )] answers the callable afterwards. *)
Theorem register_then_lookup name TaskConstructor replace h r n :
  types_proto r = None ->
  typeof TaskConstructor = "function" ->
  fst (getTaskConstructor env (VStr name) (mkState h r n)) = Normal VNull ->
  let σ' := snd (register env cfg name TaskConstructor replace (mkState h r n)) in
  fst (register env cfg name TaskConstructor replace (mkState h r n)) = Normal tt
  /\ st_heap σ' = h /\ notified σ' = n
  /\ fst (getTaskConstructor env (VStr name) σ') = Normal TaskConstructor.
Proof.
  intros _ Hf Hget. destruct (typeof_function _ Hf) as [f ->].
  cbn in Hget.
  assert (Ht : truthy (types_get (host_fn_get env) r name) = false).
  { destruct (truthy (types_get (host_fn_get env) r name)) eqn:E; [|done].
    injection Hget as Hget. rewrite Hget in E. discriminate. }
  unfold register. cbn [typeof String.eqb Ascii.eqb Bool.eqb negb]. unfold bind.
  cbn [_types]. rewrite Ht, andb_false_r. cbn.
  by rewrite types_get_set_eq.
Qed.

(** X3.  A registration, accepted or refused, changes the answer of
    [getTaskConstructor] for no other name (the name registered being other
    than [__proto__], which sets the prototype of the registry). *)
Theorem register_keeps_other_types name other TaskConstructor replace σ :
  name <> "__proto__" -> name <> other ->
  fst (getTaskConstructor env (VStr other)
         (snd (register env cfg name TaskConstructor replace σ)))
  = fst (getTaskConstructor env (VStr other) σ).
Proof.
  intros Hp Hne. destruct σ as [h r n]. unfold register.
  assert (He : forall e, _types (snd (error cfg e (mkState h r n))) = r).
  { intros e. unfold error, throw, ret. destruct (_strict cfg); [done|].
    by destruct (_notify cfg). }
  destruct (negb (String.eqb (typeof TaskConstructor) "function")).
  { cbn. by rewrite He. }
  unfold bind. cbn [_types].
  destruct (negb replace && truthy (types_get (host_fn_get env) r name)).
  { cbn. by rewrite He. }
  cbn. by rewrite types_get_set_ne.
Qed.

End Registry.

Lemma register_rejects_non_callable_witness :
  register Scenario.env Scenario.lenient "noop" (VStr "Noop") false
    (Scenario.registered Scenario.lenient [])
  = (Normal tt,
     mkState [] (_types (Scenario.registered Scenario.lenient []))
       [TaskRunnerException "Task constructor must be a constructor: noop" None]).
Proof.
  exact (register_rejects_non_callable Scenario.env Scenario.lenient "noop" (VStr "Noop") false
           [] (_types (Scenario.registered Scenario.lenient [])) [] ltac:(discriminate)).
Defined.

Lemma register_then_lookup_witness :
  fst (getTaskConstructor Scenario.env (VStr "later")
         (snd (register Scenario.env Scenario.strict "later" (VFun (User "Echo")) false
                 (Scenario.registered Scenario.strict []))))
  = Normal (VFun (User "Echo")).
Proof.
  destruct (register_then_lookup Scenario.env Scenario.strict "later" (VFun (User "Echo")) false
              [] (_types (Scenario.registered Scenario.strict [])) [])
    as (_ & _ & _ & G); [reflexivity | reflexivity | reflexivity |].
  exact G.
Defined.

Lemma register_keeps_other_types_witness :
  fst (getTaskConstructor Scenario.env (VStr "noop")
         (snd (register Scenario.env Scenario.strict "echo" (VFun (User "Other")) true
                 (Scenario.registered Scenario.strict []))))
  = Normal (VFun (User "Noop")).
Proof.
  rewrite (register_keeps_other_types Scenario.env Scenario.strict "echo" "noop"
             (VFun (User "Other")) true (Scenario.registered Scenario.strict []));
    [reflexivity | discriminate | discriminate].
Defined.

(** ** What the methods leave alone *)

Section Preserved.
Variable env : host.
Variable cfg : config.
Context {X : Type}.
Variable f : state -> X.
Hypothesis f_heap : forall σ h, f (with_heap σ h) = f σ.
Hypothesis f_error : forall e, preserves f (error cfg e).

Lemma preserves_ret {A} (a : A) : preserves f (ret a).
Proof. by intros σ. Qed.

Lemma preserves_throw {A} e : preserves f (@throw A e).
Proof. by intros σ. Qed.

Lemma preserves_bind {A B} (m : M A) (k : A -> M B) :
  preserves f m -> (forall a, preserves f (k a)) -> preserves f (bind m k).
Proof.
  intros Hm Hk σ. unfold bind. specialize (Hm σ).
  destruct (m σ) as [[a|e|] σ']; simpl in *; [|done..].
  by rewrite Hk.
Qed.

Lemma preserves_try_catch {A} (m : M A) (handler : exn -> M A) :
  preserves f m -> (forall e, preserves f (handler e)) -> preserves f (try_catch m handler).
Proof.
  intros Hm Hk σ. unfold try_catch. specialize (Hm σ).
  destruct (m σ) as [[a|e|] σ']; simpl in *; [done| |done].
  by rewrite Hk.
Qed.

Lemma preserves_lift {A} (g : heap -> completion A) : preserves f (lift g).
Proof. by intros σ. Qed.

Lemma preserves_test p : preserves f (test p).
Proof. by intros σ. Qed.

Lemma preserves_setp v k x : preserves f (setp v k x).
Proof.
  intros σ. unfold setp. destruct (set_prop (st_heap σ) v k x); simpl; [apply f_heap|done..].
Qed.

Lemma preserves_new_obj o : preserves f (new_obj o).
Proof. intros σ. unfold new_obj. simpl. apply f_heap. Qed.

Lemma preserves_state {A} (g : state -> A) : preserves f (fun σ => (Normal (g σ), σ)).
Proof. by intros σ. Qed.

Lemma preserves_heap_update (g : state -> heap) :
  preserves f (fun σ => (Normal tt, with_heap σ (g σ))).
Proof. intros σ. simpl. apply f_heap. Qed.

Ltac step :=
  first
    [ apply preserves_ret | apply preserves_throw | apply preserves_lift
    | apply preserves_test | apply preserves_setp | apply preserves_new_obj
    | apply f_error | apply preserves_state | apply preserves_heap_update
    | apply preserves_bind; [|intros ?]
    | match goal with |- preserves _ (if ?b then _ else _) => destruct b end
    | match goal with |- preserves _ (match ?x with _ => _ end) => destruct x end ].

Lemma preserves_normalize v : preserves f (normalize v).
Proof. unfold normalize, ensure_options, inject_id, ensure_args, getp. repeat step. Qed.

Lemma preserves_parse v : preserves f (parse cfg v).
Proof. unfold parse. destruct (_parser cfg); [|apply preserves_ret]. intros σ. apply f_heap. Qed.

Lemma preserves_fault prefix v previous : preserves f (fault env cfg prefix v previous).
Proof. unfold fault, getp. repeat step. Qed.

Lemma preserves_getTaskConstructor v : preserves f (getTaskConstructor env v).
Proof. by intros σ. Qed.

Lemma preserves_new_task self_run C opts σ :
  (forall v, preserves f (self_run v)) ->
  f (snd (new_task env self_run C opts σ)) = f σ
  /\ forall g, fst (new_task env self_run C opts σ) = Normal g -> forall args, preserves f (g args).
Proof.
  intros Hs. unfold new_task. destruct C as [| | | | |[name|c]| |]; try (split; [done|discriminate]).
  - destruct (String.eqb name "Object"); [|split; [done|discriminate]].
    split; [done|]. intros g [= <-] args. apply Hs.
  - destruct (host_new env c opts (st_heap σ)) as [[task_run|e] h'] eqn:E; simpl.
    + split; [apply f_heap|]. intros g [= <-] args σ1.
      destruct (task_run args (st_heap σ1)) as [[v|e] h1]; simpl; apply f_heap.
    + split; [apply f_heap|discriminate].
Qed.

Lemma preserves_construct_and_run self_run v :
  (forall x, preserves f (self_run x)) -> preserves f (construct_and_run env cfg self_run v).
Proof.
  intros Hs. unfold construct_and_run. apply preserves_bind; [apply preserves_lift|]. intros ty.
  apply preserves_bind; [apply preserves_getTaskConstructor|]. intros C.
  destruct (negb (truthy C)); [apply preserves_fault|].
  intros σ. unfold bind at 1. unfold getp at 1, lift at 1.
  destruct (get_prop (st_heap σ) v "options") as [opts|e|]; cbn [fst snd];
    [|apply preserves_fault|done].
  destruct (preserves_new_task self_run C opts σ Hs) as [H1 H2].
  destruct (new_task env self_run C opts σ) as [[g|e|] σ1]; simpl in H1.
  - rewrite <- H1. specialize (H2 g eq_refl).
    apply (preserves_try_catch _ _); [|intros e; apply preserves_fault].
    unfold getp. repeat step. apply H2.
  - rewrite <- H1. apply preserves_fault.
  - done.
Qed.

Lemma preserves_task self_run v :
  (forall x, preserves f (self_run x)) -> preserves f (task env cfg self_run v).
Proof.
  intros Hs. unfold task. apply preserves_bind; [apply preserves_test|]. intros [|].
  - apply preserves_fault.
  - apply preserves_bind; [apply preserves_parse|]. intros _.
    apply preserves_bind; [apply preserves_normalize|]. intros _.
    by apply preserves_construct_and_run.
Qed.

Lemma preserves_sequence_loop self_run taskMap stats fuel i :
  (forall x, preserves f (self_run x)) ->
  preserves f (sequence_loop self_run taskMap stats fuel i).
Proof.
  intros Hs. revert i. induction fuel as [|fuel IH]; intros i; cbn [sequence_loop].
  - by intros σ.
  - repeat step; auto.
Qed.

Lemma preserves_sequence fuel self_run v :
  (forall x, preserves f (self_run x)) -> preserves f (sequence cfg fuel self_run v).
Proof.
  intros Hs. unfold sequence. repeat step. by apply preserves_sequence_loop.
Qed.

Lemma preserves_start m : preserves f m -> preserves f (start m).
Proof.
  intros Hm σ. unfold start. specialize (Hm σ).
  destruct (m σ) as [[a|e|] σ']; simpl in *; [| |done]; by rewrite f_heap.
Qed.

Lemma preserves_await_all tasks : preserves f (await_all tasks).
Proof.
  induction tasks as [|p tasks IH]; cbn [await_all]; [apply preserves_ret|].
  apply preserves_bind; [|by intros _].
  intros σ. unfold await. destruct p; try done.
  by destruct (st_heap σ !! l) as [[| | |[]]|].
Qed.

Lemma preserves_parallel_loop self_run stats entries :
  (forall x, preserves f (self_run x)) ->
  preserves f (parallel_loop self_run stats entries).
Proof.
  intros Hs. induction entries as [|[k v] entries IH]; cbn [parallel_loop]; [apply preserves_ret|].
  apply preserves_bind; [by apply preserves_start|]. intros p.
  repeat step. exact IH.
Qed.

Lemma preserves_parallel self_run v :
  (forall x, preserves f (self_run x)) -> preserves f (parallel cfg self_run v).
Proof.
  intros Hs. unfold parallel, getp. repeat step.
  - by apply preserves_parallel_loop.
  - apply preserves_await_all.
Qed.

End Preserved.

Lemma error_keeps_types cfg e : preserves _types (error cfg e).
Proof.
  intros σ. unfold error, throw, ret. destruct (_strict cfg); [done|]. by destruct (_notify cfg).
Qed.

Lemma strict_error_is_silent cfg e : _strict cfg = true -> preserves notified (error cfg e).
Proof. intros Hs σ. unfold error, throw. by rewrite Hs. Qed.

(** X4.  [task], [sequence] and [parallel] leave the registry as it is,
    provided the calls back into [run] do: the registry changes through
    [register] only. *)
Theorem registry_changes_through_register_only env cfg self_run fuel v σ :
  (forall x σ', _types (snd (self_run x σ')) = _types σ') ->
  _types (snd (task env cfg self_run v σ)) = _types σ
  /\ _types (snd (sequence cfg fuel self_run v σ)) = _types σ
  /\ _types (snd (parallel cfg self_run v σ)) = _types σ.
Proof.
  intros Hs. split_and!.
  - apply (preserves_task env cfg _types); [done | intros e; apply error_keeps_types | exact Hs].
  - apply (preserves_sequence cfg _types); [done | intros e; apply error_keeps_types | exact Hs].
  - apply (preserves_parallel cfg _types); [done | intros e; apply error_keeps_types | exact Hs].
Qed.

(** X5.  In strict mode [task], [sequence] and [parallel] never call the
    notification callback, provided the calls back into [run] do not. *)
Theorem strict_mode_never_notifies env cfg self_run fuel v σ :
  _strict cfg = true ->
  (forall x σ', notified (snd (self_run x σ')) = notified σ') ->
  notified (snd (task env cfg self_run v σ)) = notified σ
  /\ notified (snd (sequence cfg fuel self_run v σ)) = notified σ
  /\ notified (snd (parallel cfg self_run v σ)) = notified σ.
Proof.
  intros Hst Hs. split_and!.
  - apply (preserves_task env cfg notified); [done | intros e; by apply strict_error_is_silent | exact Hs].
  - apply (preserves_sequence cfg notified); [done | intros e; by apply strict_error_is_silent | exact Hs].
  - apply (preserves_parallel cfg notified); [done | intros e; by apply strict_error_is_silent | exact Hs].
Qed.

Lemma registry_changes_through_register_only_witness :
  let h := [OPojo [("type", VStr "echo"); ("args", VNum 5)]] in
  let σ := Scenario.registered Scenario.lenient h in
  _types (snd (task Scenario.env Scenario.lenient (run Scenario.env Scenario.lenient 1)
                 (VRef 0) σ)) = _types σ.
Proof.
  intros h σ.
  destruct (registry_changes_through_register_only Scenario.env Scenario.lenient
              (run Scenario.env Scenario.lenient 1) 1 (VRef 0) σ) as (T & _).
  - intros x σ'. reflexivity.
  - exact T.
Defined.

Lemma strict_mode_never_notifies_witness :
  let h := [OPojo [("type", VStr "broken")]] in
  let σ := Scenario.registered Scenario.strict h in
  notified (snd (task Scenario.env Scenario.strict (run Scenario.env Scenario.strict 1)
                   (VRef 0) σ)) = [].
Proof.
  intros h σ.
  destruct (strict_mode_never_notifies Scenario.env Scenario.strict
              (run Scenario.env Scenario.strict 1) 1 (VRef 0) σ) as (T & _).
  - reflexivity.
  - intros x σ'. reflexivity.
  - exact T.
Defined.

(** ** More on [task] *)

Section TaskMore.
Variable env : host.
Variable cfg : config.

(** X6.  When reading [taskData.type] throws ([taskData] is [null] or
    [undefined]), [task] rejects with that error in every mode, strict or
    not, and the state is as it was: the fault is raised while the message
    for [error] is built. *)
Theorem task_rejects_when_type_cannot_be_read self_run v σ e :
  get_prop (st_heap σ) v "type" = Throw e ->
  task env cfg self_run v σ = (Throw e, σ).
Proof.
  intros Hg. destruct v; try discriminate; injection Hg as <-; reflexivity.
Qed.


(** X8.  Once the task is constructed, [task] answers what [run] fulfils
    with; what [run] rejects with is wrapped in "Failed to run task: <type>",
    the rejection being the previous error and the type being read after the
    run, and handed to [error]. *)
Theorem run_outcome_is_returned_or_wrapped self_run h r n l d1 c opts task_run h3 :
  invalid_task h (VRef l) = false ->
  parsed cfg (VRef l) h !! l = Some d1 ->
  is_record d1 = true ->
  types_get (host_fn_get env) r (to_str env (obj_get d1 "type")) = VFun (User c) ->
  let h1 := parsed cfg (VRef l) h in
  let h2 := normalized cfg (VRef l) (mkState h r n) in
  get_prop h2 (VRef l) "options" = Normal opts ->
  host_new env c opts h2 = (Instance task_run, h3) ->
  extends_but [] h2 h3 ->
  match task_run (args_elems h1 (obj_get d1 "args")) h3 with
  | (Fulfilled v, h4) =>
      task env cfg self_run (VRef l) (mkState h r n) = (Normal v, mkState h4 r n)
  | (Rejected e, h4) =>
      forall ty, get_prop h4 (VRef l) "type" = Normal ty ->
      let wrapping :=
        TaskRunnerException ("Failed to run task: " ++ to_str env ty) (Some e) in
      task env cfg self_run (VRef l) (mkState h r n)
      = (if _strict cfg then Throw wrapping else Normal VNull,
         mkState h4 r (reported cfg n wrapping))
  end.
Proof.
  intros Hv Hl Hrec Hk h1 h2 Ho Hnew Hx.
  destruct (task_steps env cfg self_run h r n l d1 Hv Hl Hrec)
    as (E & X & Hty & lo & la & O & P & Co & I & A & L & Ca).
  destruct (X l d1 Hl) as (d2 & Hl2 & _).
  assert (A3 : get_prop h3 (VRef l) "args" = Normal (VRef la)).
  { by rewrite (extends_nothing_get _ _ _ _ _ Hx Hl2). }
  assert (L3 : h3 !! la = Some (OArray (args_elems h1 (obj_get d1 "args")))).
  { by eapply extends_but_array. }
  pose proof (construct_and_run_runs env cfg self_run l h2 r n _ c opts task_run h3 la _
                Hty Hk Ho Hnew A3 L3) as R.
  subst h1 h2. rewrite <- E in R.
  destruct (task_run _ h3) as [[v|e] h4]; [exact R|].
  intros ty Hty4 wrapping. rewrite R. by apply fault_eq.
Qed.

End TaskMore.


Lemma run_outcome_is_returned_or_wrapped_witness :
  let h := [OPojo [("type", VStr "base")]] in
  let σ := Cases.registered Scenario.lenient h in
  fst (task Cases.env Scenario.lenient (run Cases.env Scenario.lenient 1) (VRef 0) σ)
  = Normal VNull
  /\ notified (snd (task Cases.env Scenario.lenient (run Cases.env Scenario.lenient 1)
                      (VRef 0) σ))
     = [TaskRunnerException "Failed to run task: base"
          (Some (TaskException "Task must implement a run method"))].
Proof.
  intros h σ.
  pose (h2 := [OPojo [("type", VStr "base"); ("options", VRef 1); ("args", VRef 2)];
               OPojo []; OArray []]).
  pose (this := {| Task.timer := 100; Task._defaults := VRef 3; Task.options_ := VRef 4 |}).
  pose proof (run_outcome_is_returned_or_wrapped Cases.env Scenario.lenient
                (run Cases.env Scenario.lenient 1) h (_types σ) [] 0
                (OPojo [("type", VStr "base")]) "Task" (VRef 1) (Task.run this)
                (h2 ++ [OPojo [("id", VStr "s7r4nd")]; OPojo [("id", VStr "s7r4nd")]])
                eq_refl eq_refl eq_refl eq_refl eq_refl eq_refl
                (extends_but_app [] h2 _)) as R.
  specialize (R (VStr "base") eq_refl).
  split; [exact (f_equal fst R) | exact (f_equal (fun x => notified (snd x)) R)].
Defined.


Section Lenient.
Variable env : host.
Variable cfg : config.
Hypothesis lenient : _strict cfg = false.





End Lenient.


Lemma task_rejects_when_type_cannot_be_read_witness :
  task Scenario.env Scenario.lenient (run Scenario.env Scenario.lenient 1) VNull
    (Scenario.registered Scenario.lenient [])
  = (Throw (TypeError "Cannot read properties of null (reading 'type')"),
     Scenario.registered Scenario.lenient []).
Proof.
  exact (task_rejects_when_type_cannot_be_read Scenario.env Scenario.lenient
           (run Scenario.env Scenario.lenient 1) VNull
           (Scenario.registered Scenario.lenient [])
           (TypeError "Cannot read properties of null (reading 'type')") eq_refl).
Defined.

(** ** More on the two containers *)

Lemma fulfilled_prefix_all ss :
  first_rejection ss = None -> map Fulfilled (fulfilled_prefix ss) = ss.
Proof.
  induction ss as [|[v|e] ss IH]; simpl; intros H; [done| |done]. by rewrite IH.
Qed.

Section Containers.
Variable cfg : config.
Variable g : value -> settled.

Lemma sequence_loop_settling l ls es r n fuel :
  l <> ls ->
  forall i acc hh,
    hh !! l = Some (OArray es) -> hh !! ls = Some (OArray acc) ->
    length acc = i -> length es - i < fuel ->
    sequence_loop (settling g) (VRef l) (VRef ls) fuel i (mkState hh r n)
    = (match first_rejection (map g (drop i es)) with
       | Some e => Throw e
       | None => Normal tt
       end,
       mkState (<[ls := OArray (acc ++ fulfilled_prefix (map g (drop i es)))]> hh) r n).
Proof.
  intros Hne. induction fuel as [|fuel IH]; intros i acc hh Hl Hls Hacc Hfuel; [lia|].
  cbn [sequence_loop]. unfold bind at 1. cbn [st_heap array_length]. rewrite Hl.
  destruct (i <? length es)%nat eqn:Ei.
  - apply Nat.ltb_lt in Ei.
    destruct (lookup_lt_is_Some_2 es i Ei) as [x Hx].
    rewrite (drop_S _ _ _ Hx). cbn [map first_rejection fulfilled_prefix].
    unfold bind at 1. cbn [st_heap get_index]. rewrite Hl, Hx. cbn [default from_option id].
    unfold bind at 1. unfold settling at 1.
    destruct (g x) as [v|e].
    + unfold bind at 1. unfold with_heap. cbn [st_heap _types notified set_index].
      rewrite Hls. cbv beta iota.
      assert (Hput : array_put acc i v = acc ++ [v]).
      { unfold array_put. rewrite Hacc, Nat.ltb_irrefl, Nat.sub_diag. done. }
      rewrite Hput.
      rewrite (IH (S i) (acc ++ [v]) (<[ls := OArray (acc ++ [v])]> hh)).
      * rewrite list_insert_insert_eq. by rewrite <- app_assoc.
      * by rewrite list_lookup_insert_ne.
      * apply list_lookup_insert_eq. by eapply lookup_lt_Some.
      * rewrite length_app. simpl. lia.
      * lia.
    + rewrite app_nil_r. by rewrite (list_insert_id _ _ _ Hls).
  - apply Nat.ltb_ge in Ei. rewrite drop_ge by done. simpl.
    rewrite app_nil_r. by rewrite (list_insert_id _ _ _ Hls).
Qed.

(** X10.  With calls into [run] that settle as [g] says, [sequence] runs the
    elements in order and stops at the first rejection, which it rejects
    with; the result array holds the values fulfilled before it, and one
    value per element, in input order, when nothing is rejected. *)
Theorem sequence_runs_in_order_and_stops_at_first_rejection fuel h r n l es :
  h !! l = Some (OArray es) ->
  length es < fuel ->
  sequence cfg fuel (settling g) (VRef l) (mkState h r n)
  = (match first_rejection (map g es) with
     | Some e => Throw e
     | None => Normal (VRef (length h))
     end,
     mkState (h ++ [OArray (fulfilled_prefix (map g es))]) r n)
  /\ (first_rejection (map g es) = None ->
      map Fulfilled (fulfilled_prefix (map g es)) = map g es).
Proof.
  intros Hl Hfuel. split; [|apply fulfilled_prefix_all].
  assert (Hlt : l < length h) by (by eapply lookup_lt_Some).
  unfold sequence, test. unfold bind at 1. cbn [st_heap instanceof_Array]. rewrite Hl. cbn [negb].
  unfold bind at 1. unfold new_obj, with_heap. cbn [alloc st_heap _types notified].
  unfold bind at 1.
  rewrite (sequence_loop_settling l (length h) es r n fuel ltac:(lia) 0 [] (h ++ [OArray []])).
  - rewrite drop_0. cbn [app].
    assert (Hh : <[length h := OArray (fulfilled_prefix (map g es))]> (h ++ [OArray []])
                 = h ++ [OArray (fulfilled_prefix (map g es))]).
    { rewrite insert_app_r_alt by lia. by rewrite Nat.sub_diag. }
    rewrite Hh. by destruct (first_rejection (map g es)).
  - by apply lookup_app_l_Some.
  - rewrite lookup_app_r by lia. by rewrite Nat.sub_diag.
  - done.
  - lia.
Qed.

End Containers.

Lemma sequence_runs_in_order_and_stops_at_first_rejection_witness :
  let g := fun v => match v with
                    | VNum n => if (n <? 3)%Z then Fulfilled (VNum (n * 10)) else Rejected (Thrown v)
                    | _ => Fulfilled VNull
                    end in
  sequence Scenario.lenient 5 (settling g) (VRef 0)
    (mkState [OArray [VNum 1; VNum 2; VNum 3; VNum 4]] no_types [])
  = (Throw (Thrown (VNum 3)),
     mkState [OArray [VNum 1; VNum 2; VNum 3; VNum 4]; OArray [VNum 10; VNum 20]] no_types []).
Proof.
  intros g.
  destruct (sequence_runs_in_order_and_stops_at_first_rejection Scenario.lenient g 5
              [OArray [VNum 1; VNum 2; VNum 3; VNum 4]] no_types [] 0
              [VNum 1; VNum 2; VNum 3; VNum 4] eq_refl) as [E _].
  - simpl. lia.
  - exact E.
Defined.

Lemma assoc_set_fresh (ps : props) k x :
  assoc_get ps k = None -> assoc_set ps k x = ps ++ [(k, x)].
Proof.
  induction ps as [|[k' v'] ps IH]; simpl; [done|].
  destruct (String.eqb k' k); [done|]. intros H. by rewrite IH.
Qed.

Lemma assoc_get_snoc_ne (ps : props) k k' x :
  k <> k' -> assoc_get ps k' = None -> assoc_get (ps ++ [(k, x)]) k' = None.
Proof.
  intros Hne. induction ps as [|[k0 v0] ps IH]; simpl.
  - destruct (String.eqb k k') eqn:E; [apply String.eqb_eq in E; done|done].
  - destruct (String.eqb k0 k'); [done|auto].
Qed.

Lemma lookup_map {A B} (f : A -> B) (l : list A) j :
  map f l !! j = f <$> l !! j.
Proof. revert j. induction l as [|a l IH]; intros [|j]; simpl; auto. Qed.

Section Parallel.
Variable cfg : config.
Variable g : value -> settled.

Lemma start_settling v σ :
  start (settling g v) σ = new_obj (OPromise (g v)) σ.
Proof. unfold start, settling. by destruct (g v). Qed.

Lemma parallel_loop_settling h r n (ps : props) :
  forall (acc : props) (proms : list obj),
    NoDup (map fst ps) -> ~ In "__proto__" (map fst ps) ->
    (forall k, In k (map fst ps) -> assoc_get acc k = None) ->
    let base := S (length h + length proms) in
    parallel_loop (settling g) (VRef (length h)) ps
      (mkState (h ++ [OPojo acc] ++ proms) r n)
    = (Normal (VRef <$> seq base (length ps)),
       mkState (h ++ [OPojo (acc ++ zip_with (fun kv a => (kv.1, VRef a)) ps
                                     (seq base (length ps)))]
                  ++ proms ++ map (fun kv => OPromise (g kv.2)) ps) r n).
Proof.
  induction ps as [|[k v] ps IH]; intros acc proms Hnd Hp Hfresh base.
  - simpl. by rewrite !app_nil_r.
  - cbn [parallel_loop]. unfold bind at 1. rewrite start_settling.
    unfold new_obj, with_heap. cbn [alloc st_heap _types notified].
    assert (Hlen : length (h ++ [OPojo acc] ++ proms) = base).
    { rewrite !length_app. simpl. subst base. lia. }
    rewrite Hlen.
    unfold bind at 1. unfold setp, with_heap. cbn [set_prop st_heap _types notified].
    assert (Hls : ((h ++ [OPojo acc] ++ proms) ++ [OPromise (g v)]) !! length h
                  = Some (OPojo acc)).
    { rewrite <- app_assoc. rewrite lookup_app_r by lia. by rewrite Nat.sub_diag. }
    rewrite Hls. cbn [obj_set].
    assert (Hset : pojo_set acc k (VRef base) = acc ++ [(k, VRef base)]).
    { unfold pojo_set. rewrite (Hfresh k) by (by left).
      destruct (String.eqb k "__proto__") eqn:E.
      - apply String.eqb_eq in E. subst k. destruct Hp. by left.
      - apply assoc_set_fresh, Hfresh. by left. }
    rewrite Hset.
    assert (Hh : <[length h := OPojo (acc ++ [(k, VRef base)])]>
                   ((h ++ [OPojo acc] ++ proms) ++ [OPromise (g v)])
                 = h ++ [OPojo (acc ++ [(k, VRef base)])] ++ (proms ++ [OPromise (g v)])).
    { rewrite <- !app_assoc. rewrite insert_app_r_alt by lia. by rewrite Nat.sub_diag. }
    rewrite Hh. unfold bind at 1.
    inversion Hnd as [|? ? Hk Hnd']; subst.
    rewrite (IH (acc ++ [(k, VRef base)]) (proms ++ [OPromise (g v)])).
    + assert (Hb : S (length h + length (proms ++ [OPromise (g v)])) = S base).
      { rewrite length_app. simpl. subst base. lia. }
      rewrite Hb. cbn [ret length seq fmap list_fmap zip_with map fst snd].
      by rewrite <- !app_assoc.
    + done.
    + intros Hin. apply Hp. by right.
    + intros k' Hk'. apply assoc_get_snoc_ne.
      * intros ->. apply Hk. by apply list_elem_of_In.
      * apply Hfresh. by right.
Qed.

Lemma await_all_settled r n (ss : list settled) :
  forall base hh,
    (forall j s, ss !! j = Some s -> hh !! (base + j) = Some (OPromise s)) ->
    await_all (VRef <$> seq base (length ss)) (mkState hh r n)
    = (match first_rejection ss with Some e => Throw e | None => Normal tt end,
       mkState hh r n).
Proof.
  induction ss as [|s ss IH]; intros base hh H; [done|].
  cbn [length seq fmap list_fmap await_all]. unfold bind at 1. unfold await. cbn [st_heap].
  pose proof (H 0 s eq_refl) as H0. rewrite Nat.add_0_r in H0. rewrite H0.
  destruct s as [v|e]; [|done]. cbn [first_rejection].
  apply IH. intros j s Hj. specialize (H (S j) s Hj). by rewrite Nat.add_succ_r in H.
Qed.

(** X11.  With calls into [run] that settle as [g] says as soon as they are
    started, [parallel] on a plain object without a string [type] starts one
    call per entry, in the order of the entries and also after a call that
    rejects, and stores the promise of each call under the key of the entry;
    it rejects with the rejection of the first entry whose call rejects, and
    otherwise answers the object of promises. *)
Theorem parallel_answers_the_promises_of_its_entries h r n l (ps : props) :
  h !! l = Some (OPojo ps) ->
  typeof (pojo_get ps "type") <> "string" ->
  NoDup (map fst ps) ->
  ~ In "__proto__" (map fst ps) ->
  parallel cfg (settling g) (VRef l) (mkState h r n)
  = (match first_rejection (map (fun kv => g kv.2) ps) with
     | Some e => Throw e
     | None => Normal (VRef (length h))
     end,
     mkState (h ++ [OPojo (zip_with (fun kv a => (kv.1, VRef a)) ps
                             (seq (S (length h)) (length ps)))]
                ++ map (fun kv => OPromise (g kv.2)) ps) r n).
Proof.
  intros Hl Hty Hnd Hp.
  assert (Hlt : l < length h) by (by eapply lookup_lt_Some).
  unfold parallel, test, getp, lift.
  unfold bind at 1. cbn [st_heap isPojo]. rewrite Hl.
  unfold bind at 1. cbn [negb]. unfold bind at 1. cbn [st_heap get_prop]. rewrite Hl.
  cbn [obj_get ret].
  destruct (String.eqb (typeof (pojo_get ps "type")) "string") eqn:Es.
  { apply String.eqb_eq in Es. done. }
  unfold bind at 1. unfold new_obj, with_heap. cbn [alloc st_heap _types notified].
  unfold bind at 1. cbn [st_heap Object_entries]. rewrite (lookup_app_l_Some _ _ _ _ Hl).
  unfold bind at 1.
  pose proof (parallel_loop_settling h r n ps [] [] Hnd Hp ltac:(intros; reflexivity)) as L.
  cbn [app length] in L. rewrite Nat.add_0_r in L. rewrite L.
  unfold bind at 1.
  rewrite <- (length_map (fun kv : string * value => g kv.2) ps).
  rewrite await_all_settled.
  - by destruct (first_rejection _).
  - intros j s Hj. rewrite lookup_app_r by lia.
    replace (S (length h) + j - length h) with (S j) by lia.
    change (map (fun kv : string * value => OPromise (g kv.2)) ps !! j = Some (OPromise s)).
    rewrite lookup_map in Hj. rewrite lookup_map.
    destruct (ps !! j); [|done]. by injection Hj as <-.
Qed.

(** X12.  On an empty array [sequence] answers a new empty array, and on an
    empty plain object [parallel] answers a new empty object, whatever [run]
    would do. *)
Theorem empty_containers_resolve fuel self_run h r n l :
  (h !! l = Some (OArray []) ->
   sequence cfg (S fuel) self_run (VRef l) (mkState h r n)
   = (Normal (VRef (length h)), mkState (h ++ [OArray []]) r n))
  /\ (h !! l = Some (OPojo []) ->
      parallel cfg self_run (VRef l) (mkState h r n)
      = (Normal (VRef (length h)), mkState (h ++ [OPojo []]) r n)).
Proof.
  split; intros Hl.
  - unfold sequence, test, bind, new_obj. cbn. rewrite Hl. cbn.
    by rewrite (lookup_app_l_Some _ _ _ _ Hl).
  - unfold parallel, test, getp, lift, new_obj, with_heap, bind, ret.
    cbn [st_heap _types notified isPojo get_prop alloc Object_entries].
    rewrite !Hl. cbn [negb obj_get pojo_get assoc_get get_prop st_heap].
    rewrite ?Hl. cbn [negb obj_get pojo_get assoc_get].
    change (String.eqb (typeof (if String.eqb "type" "__proto__" then VObjProto
                                else Object_prototype_get "type")) "string") with false.
    cbv beta iota. cbn [st_heap _types notified].
    rewrite (lookup_app_l_Some _ _ _ _ Hl). done.
Qed.

(** X13.  On a value that is not a plain object, or that is one with a string
    for [type], [parallel] hands an "Invalid parallel type" fault to [error]
    and, when [error] returns, answers a new empty object. *)
Theorem parallel_invalid self_run v h r n :
  isPojo h v = false
  \/ (exists ty, get_prop h v "type" = Normal ty /\ typeof ty = "string") ->
  let fault := TaskRunnerException ("Invalid parallel type: " ++ typeof v) None in
  parallel cfg self_run v (mkState h r n)
  = if _strict cfg then (Throw fault, mkState h r n)
    else (Normal (VRef (length h)), mkState (h ++ [OPojo []]) r (reported cfg n fault)).
Proof.
  intros Hv fault.
  unfold parallel, test, getp, lift. unfold bind at 1. unfold bind at 1. cbn [st_heap].
  assert (E : (if negb (isPojo h v) then ret true
               else let* ty := (fun σ : state => (get_prop (st_heap σ) v "type", σ)) in
                    ret (String.eqb (typeof ty) "string")) (mkState h r n)
              = (Normal true, mkState h r n)).
  { destruct (isPojo h v); [|done]. cbn [negb]. unfold bind, ret. cbn [st_heap].
    destruct Hv as [?|(ty & Hg & Hs)]; [done|]. by rewrite Hg, Hs. }
  rewrite E. unfold error, reported, bind, new_obj, throw, ret. fold fault.
  destruct (_strict cfg); [done|]. by destruct (_notify cfg).
Qed.

End Parallel.

Lemma clone_flat_copies : clone_copies Task.clone_flat.
Proof.
  intros h v k x Hv Hget _. destruct (isPojo_inv _ _ Hv) as (l & ps & -> & Hl).
  unfold Task.clone_flat. rewrite Hl. cbn [alloc get_prop].
  rewrite lookup_app_r by lia. rewrite Nat.sub_diag. cbn [lookup list_lookup].
  rewrite <- Hget. cbn [get_prop]. by rewrite Hl.
Qed.

Section TaskDefaults.
Variable cloneObject : heap -> value -> heap * value.
Variable mergeObject : heap -> value -> value -> heap.
Hypothesis clone_ok : clone_is_fresh cloneObject.
Hypothesis copy_ok : clone_copies cloneObject.

(** X14.  [new Task( runner, options, defaults )] with falsy [options]: when
    [defaults.id] is falsy, the id that [strand()] generates is written into
    the [defaults] object of the caller, and the effective options carry it;
    a truthy [defaults.id] is kept.  No other object of the store changes. *)
Theorem new_without_options fresh_id now h options ld pd :
  truthy options = false ->
  h !! ld = Some (OPojo pd) ->
  let id := if truthy (pojo_get pd "id") then pojo_get pd "id" else VStr fresh_id in
  primitive id = true ->
  exists h3 this,
    Task.new cloneObject mergeObject fresh_id now h options (VRef ld) = Normal (h3, this)
    /\ Task._defaults this = VRef ld
    /\ get_prop h3 (VRef ld) "id" = Normal id
    /\ get_prop h3 (Task.options_ this) "id" = Normal id
    /\ (forall l, l <> ld -> l < length h -> h3 !! l = h !! l).
Proof.
  intros Hopt Hld id Hprim.
  assert (Hlt : ld < length h) by (by eapply lookup_lt_Some).
  unfold Task.new, Task.and_then. cbn [get_prop]. rewrite Hld. cbn [obj_get].
  set (hB := if negb (truthy (pojo_get pd "id"))
             then set_prop h (VRef ld) "id" (VStr fresh_id) else Normal h).
  assert (HB : exists h', hB = Normal h'
                 /\ isPojo h' (VRef ld) = true
                 /\ get_prop h' (VRef ld) "id" = Normal id
                 /\ length h' = length h
                 /\ (forall l, l <> ld -> h' !! l = h !! l)).
  { subst hB id. destruct (truthy (pojo_get pd "id")) eqn:Etd; cbn [negb].
    - exists h. split_and!; try done; simpl; by rewrite Hld.
    - cbn [set_prop]. rewrite Hld. eexists. split; [reflexivity|]. split_and!.
      + simpl. by rewrite list_lookup_insert_eq.
      + simpl. rewrite list_lookup_insert_eq by done. cbn [obj_set obj_get].
        by rewrite pojo_get_set_eq.
      + apply length_insert.
      + intros l Hne. by rewrite list_lookup_insert_ne by congruence. }
  destruct HB as (h' & -> & Pd & Id & Hlen & Hfr).
  pose proof (copy_ok h' (VRef ld) "id" id Pd Id Hprim) as W.
  destruct (clone_ok h' (VRef ld) Pd) as (ext & lc & Ec & Pc).
  rewrite Ec in W |- *.
  assert (Ho : truthy (match options with VUndef => VNull | _ => options end) = false)
    by (by destruct options).
  rewrite Ho. cbn [andb]. eexists _, _. split; [reflexivity|]. cbn [Task._defaults Task.options_].
  split_and!; try done.
  - rewrite <- Id. cbn [get_prop]. apply isPojo_inv in Pd as (l0 & ps & El & Hl0).
    injection El as <-. by rewrite (lookup_app_l_Some _ _ _ _ Hl0), Hl0.
  - intros l Hne Hl. rewrite lookup_app_l by lia. by apply Hfr.
Qed.

End TaskDefaults.

Lemma new_without_options_witness :
  exists h3 this,
    Task.new Task.clone_flat Task.merge_flat "s7r4nd" 5 [OPojo [("size", VNum 3)]] VNull (VRef 0)
    = Normal (h3, this)
    /\ Task._defaults this = VRef 0
    /\ get_prop h3 (VRef 0) "id" = Normal (VStr "s7r4nd")
    /\ get_prop h3 (Task.options_ this) "id" = Normal (VStr "s7r4nd")
    /\ (forall l, l <> 0 -> l < 1 -> h3 !! l = [OPojo [("size", VNum 3)]] !! l).
Proof.
  apply (new_without_options Task.clone_flat Task.merge_flat clone_flat_is_fresh
           clone_flat_copies "s7r4nd" 5%N [OPojo [("size", VNum 3)]] VNull 0
           [("size", VNum 3)]); reflexivity.
Defined.

(** X15.  [stats( data )] adds to [data]: its properties other than [id] and
    [time] are as they were, no other object changes, and one object, the
    elapsed time, is created. *)
Theorem stats_keeps_the_rest (this : Task.t) now h ld lo o :
  isPojo h (VRef ld) = true ->
  Task.options_ this = VRef lo ->
  h !! lo = Some o ->
  exists h',
    Task.stats this now h (VRef ld) = Normal (h', VRef ld)
    /\ length h' = S (length h)
    /\ (forall l, l <> ld -> l < length h -> h' !! l = h !! l)
    /\ (forall k, k <> "id" -> k <> "time" ->
          get_prop h' (VRef ld) k = get_prop h (VRef ld) k).
Proof.
  intros Hd Ho Hlo. simpl in Hd.
  destruct (h !! ld) as [od|] eqn:Hld; [|done].
  assert (Hlt : ld < length h) by (by eapply lookup_lt_Some).
  unfold Task.stats, Task.Timer_end, Task.and_then. rewrite Ho. cbn [get_prop set_prop alloc].
  rewrite Hlo, Hld. cbn [fst snd].
  set (hA := <[ld := obj_set od "id" (obj_get o "id")]> h).
  assert (HA : (hA ++ [OArray (Task.elapsed (Task.timer this) now)]) !! ld
               = Some (obj_set od "id" (obj_get o "id"))).
  { apply lookup_app_l_Some. subst hA. by apply list_lookup_insert_eq. }
  rewrite HA. eexists. split; [reflexivity|].
  assert (Hlen : length hA = length h) by (subst hA; apply length_insert).
  rewrite Hlen. split_and!.
  - rewrite length_insert, length_app, Hlen. simpl. lia.
  - intros l Hne Hl. rewrite list_lookup_insert_ne by congruence.
    rewrite lookup_app_l by lia. subst hA. by rewrite list_lookup_insert_ne by congruence.
  - intros k Hid Htime. cbn [get_prop]. rewrite ?Hld.
    rewrite list_lookup_insert_eq by (rewrite length_app, Hlen; simpl; lia).
    rewrite !obj_get_set_ne by congruence. done.
Qed.

Lemma stats_keeps_the_rest_witness :
  let this := {| Task.timer := 100; Task._defaults := VRef 0; Task.options_ := VRef 1 |} in
  let h := [OPojo [("id", VStr "a")]; OPojo [("id", VStr "x")]; OPojo [("size", VNum 3)]] in
  exists h',
    Task.stats this 2000000350 h (VRef 2) = Normal (h', VRef 2)
    /\ length h' = 4
    /\ (forall l, l <> 2 -> l < 3 -> h' !! l = h !! l)
    /\ (forall k, k <> "id" -> k <> "time" ->
          get_prop h' (VRef 2) k = get_prop h (VRef 2) k).
Proof.
  intros this h.
  apply (stats_keeps_the_rest this 2000000350 h 2 1 (OPojo [("id", VStr "x")]));
    reflexivity.
Defined.

Section Earlier.
Variable env : host.
Variable cfg : config.

(** X16.  The two revisions of [task] agree on every value that is not a
    function: the tests that the later revision adds change no result. *)
Theorem revisions_of_task_agree self_run v σ :
  typeof v <> "function" ->
  EarlierRevision.task env cfg self_run v σ = task env cfg self_run v σ.
Proof.
  intros Hf.
  destruct v as [| |b|z|s|f| |l];
    try (by apply earlier_task_agrees); try reflexivity.
  all: try (exfalso; by apply Hf).
  all: unfold EarlierRevision.task, task, test, invalid_task;
    unfold bind at 1; unfold bind at 1; cbn [st_heap get_prop truthy typeof getp lift].
  - by destruct b.
  - by destruct (z =? 0)%Z.
  - by destruct (String.eqb s "").
Qed.


(** X18.  In the earlier revision, [run] on a value that is neither an array
    nor a plain object hands an "Invalid taskMap type" fault to [error] and
    answers [null]; none of [parallel], [sequence] and [task] is called. *)
Theorem earlier_run_rejects_other_values par seq tsk v h r n :
  instanceof_Array h v = false ->
  isPojo h v = false ->
  let e := TaskRunnerException ("Invalid taskMap type: " ++ typeof v) None in
  EarlierRevision.run cfg par seq tsk v (mkState h r n)
  = (sink cfg e, mkState h r (reported cfg n e)).
Proof.
  intros Ha Hp e. unfold EarlierRevision.run, test.
  unfold bind at 1. cbn [st_heap]. rewrite Ha. unfold bind at 1. cbn [st_heap]. rewrite Hp.
  apply error_eq.
Qed.

End Earlier.

(** X19.  On a new dispatcher, a registration without [replace] under a name
    that [Object.prototype] answers ([toString], [constructor], [__proto__],
    ...) is refused as "already defined"; the fault is thrown when the
    argument [strict] is truthy or left out, and notified otherwise. *)
Theorem fresh_dispatcher_refuses_inherited_names env strict notify taskParser name C h :
  typeof C = "function" ->
  name = "__proto__" \/ truthy (Object_prototype_get name) = true ->
  let cfg := fst (Setup.constructor strict notify taskParser) in
  let r := snd (Setup.constructor strict notify taskParser) in
  let throws := match strict with VUndef => true | _ => truthy strict end in
  let e := TaskRunnerException ("Task constructor already defined: " ++ name) None in
  register env cfg name C false (mkState h r [])
  = (if throws then Throw e else Normal tt,
     mkState h r (if throws then [] else if notify then [e] else [])).
Proof.
  intros Hf Hn cfg r throws e. destruct (typeof_function _ Hf) as [f ->].
  unfold register. cbn [typeof String.eqb Ascii.eqb Bool.eqb negb]. unfold bind.
  cbn [_types]. subst r. cbn [Setup.constructor snd].
  assert (Ht : truthy (types_get (host_fn_get env) no_types name) = true).
  { unfold types_get, no_types. cbn [types_own types_proto assoc_get].
    destruct Hn as [->|Hn]; [done|]. by destruct (String.eqb name "__proto__"). }
  rewrite Ht. cbn [negb andb]. fold e.
  unfold error, throw, ret, with_notified. subst cfg throws.
  cbn [Setup.constructor fst _strict _notify st_heap _types notified].
  destruct strict as [| |b|z|s|f'| |l]; cbn [truthy]; try done;
    repeat match goal with |- context [if ?b then _ else _] => destruct b end; done.
Qed.

Lemma fresh_dispatcher_refuses_inherited_names_witness :
  register Scenario.env (fst (Setup.constructor (VBool false) true None)) "toString"
    (VFun (User "Noop")) false (mkState [] (snd (Setup.constructor (VBool false) true None)) [])
  = (Normal tt,
     mkState [] no_types [TaskRunnerException "Task constructor already defined: toString" None]).
Proof.
  exact (fresh_dispatcher_refuses_inherited_names Scenario.env (VBool false) true None
           "toString" (VFun (User "Noop")) [] eq_refl (or_intror eq_refl)).
Defined.

Lemma parallel_answers_the_promises_of_its_entries_witness :
  parallel Scenario.lenient
    (settling (fun v => match v with
                        | VNum 0 => Rejected (Thrown (VStr "zero"))
                        | _ => Fulfilled v
                        end))
    (VRef 0) (mkState [OPojo [("a", VNum 1); ("b", VNum 0); ("c", VNum 2)]] no_types [])
  = (Throw (Thrown (VStr "zero")),
     mkState [OPojo [("a", VNum 1); ("b", VNum 0); ("c", VNum 2)];
              OPojo [("a", VRef 2); ("b", VRef 3); ("c", VRef 4)];
              OPromise (Fulfilled (VNum 1));
              OPromise (Rejected (Thrown (VStr "zero")));
              OPromise (Fulfilled (VNum 2))] no_types []).
Proof.
  refine (parallel_answers_the_promises_of_its_entries Scenario.lenient _
            [OPojo [("a", VNum 1); ("b", VNum 0); ("c", VNum 2)]] no_types [] 0
            [("a", VNum 1); ("b", VNum 0); ("c", VNum 2)] eq_refl _ _ _).
  - discriminate.
  - apply (bool_decide_unpack _). vm_compute. exact I.
  - simpl. intros [H|[H|[H|[]]]]; discriminate.
Defined.

Lemma empty_containers_resolve_witness :
  sequence Scenario.strict 1 (run Scenario.env Scenario.strict 0) (VRef 0)
    (mkState [OArray []] no_types [])
  = (Normal (VRef 1), mkState [OArray []; OArray []] no_types [])
  /\ parallel Scenario.strict (run Scenario.env Scenario.strict 0) (VRef 0)
       (mkState [OPojo []] no_types [])
     = (Normal (VRef 1), mkState [OPojo []; OPojo []] no_types []).
Proof.
  split.
  - exact (proj1 (empty_containers_resolve Scenario.strict 0 (run Scenario.env Scenario.strict 0)
                    [OArray []] no_types [] 0) eq_refl).
  - exact (proj2 (empty_containers_resolve Scenario.strict 0 (run Scenario.env Scenario.strict 0)
                    [OPojo []] no_types [] 0) eq_refl).
Defined.

Lemma parallel_invalid_witness :
  parallel Scenario.lenient (run Scenario.env Scenario.lenient 1) (VRef 0)
    (mkState [OPojo [("type", VStr "noop")]] no_types [])
  = (Normal (VRef 1),
     mkState [OPojo [("type", VStr "noop")]; OPojo []] no_types
       [TaskRunnerException "Invalid parallel type: object" None]).
Proof.
  exact (parallel_invalid Scenario.lenient (run Scenario.env Scenario.lenient 1) (VRef 0)
           [OPojo [("type", VStr "noop")]] no_types []
           (or_intror (ex_intro _ (VStr "noop") (conj eq_refl eq_refl)))).
Defined.

Lemma revisions_of_task_agree_witness :
  EarlierRevision.task Scenario.env Scenario.lenient
    (run Scenario.env Scenario.lenient 1) (VNum 5) (mkState [] no_types [])
  = task Scenario.env Scenario.lenient
      (run Scenario.env Scenario.lenient 1) (VNum 5) (mkState [] no_types []).
Proof.
  apply (revisions_of_task_agree Scenario.env Scenario.lenient
           (run Scenario.env Scenario.lenient 1) (VNum 5) (mkState [] no_types [])).
  discriminate.
Defined.


Lemma earlier_run_rejects_other_values_witness :
  let self := run Scenario.env Scenario.strict 1 in
  EarlierRevision.run Scenario.strict self self self (VStr "noop") (mkState [] no_types [])
  = (Throw (TaskRunnerException "Invalid taskMap type: string" None), mkState [] no_types []).
Proof.
  intros self.
  exact (earlier_run_rejects_other_values Scenario.strict self self self (VStr "noop")
           [] no_types [] eq_refl eq_refl).
Defined.

Lemma assoc_set_same (ps : props) k v : assoc_get ps k = Some v -> assoc_set ps k v = ps.
Proof.
  induction ps as [|[k' v'] ps IH]; simpl; [done|].
  destruct (String.eqb k' k) eqn:E.
  - intros [= ->]. apply String.eqb_eq in E. by subst.
  - intros H. by rewrite IH.
Qed.

Lemma pojo_set_same (ps : props) k v : assoc_get ps k = Some v -> pojo_set ps k v = ps.
Proof. intros H. unfold pojo_set. rewrite H. by apply assoc_set_same. Qed.

Lemma pojo_set_own (ps : props) k v :
  k <> "__proto__" -> assoc_get (pojo_set ps k v) k = Some v.
Proof.
  intros Hk. unfold pojo_set. destruct (assoc_get ps k); [apply assoc_get_set_eq|].
  destruct (String.eqb k "__proto__") eqn:E; [apply String.eqb_eq in E; done|].
  apply assoc_get_set_eq.
Qed.

Lemma own_of_truthy_id (ps : props) :
  truthy (pojo_get ps "id") = true -> assoc_get ps "id" = Some (pojo_get ps "id").
Proof. unfold pojo_get. by destruct (assoc_get ps "id"). Qed.

Lemma normalize_fixed h r n l d lo o la es :
  h !! l = Some d ->
  obj_get d "options" = VRef lo -> h !! lo = Some (OPojo o) ->
  (truthy (obj_get d "id") = true -> assoc_get o "id" = Some (obj_get d "id")) ->
  obj_get d "args" = VRef la -> h !! la = Some (OArray es) ->
  normalize (VRef l) (mkState h r n) = (Normal tt, mkState h r n).
Proof.
  intros Hl Ho Hlo Hid Ha Hla.
  unfold normalize, ensure_options, inject_id, ensure_args, getp, lift, test, setp, with_heap.
  unfold bind at 1. unfold bind at 1. cbn [st_heap get_prop]. rewrite Hl, Ho.
  unfold bind at 1. cbn [st_heap isPojo]. rewrite Hlo. cbn [negb ret].
  unfold bind at 1. unfold bind at 1. cbn [st_heap get_prop]. rewrite Hl.
  destruct (truthy (obj_get d "id")) eqn:Et.
  - unfold bind at 1. cbn [st_heap get_prop]. rewrite Hl, Ho. cbn [set_prop]. rewrite Hlo.
    cbn [obj_set]. rewrite pojo_set_same by auto. rewrite list_insert_id by done.
    cbn [st_heap _types notified].
    unfold bind at 1. cbn [st_heap get_prop]. rewrite Hl, Ha.
    unfold bind at 1. cbn [st_heap instanceof_Array]. by rewrite Hla.
  - cbn [ret]. unfold bind at 1. cbn [st_heap get_prop]. rewrite Hl, Ha.
    unfold bind at 1. cbn [st_heap instanceof_Array]. by rewrite Hla.
Qed.

Lemma inject_id_eq h r n l d lo o :
  h !! l = Some d -> obj_get d "options" = VRef lo -> h !! lo = Some o ->
  inject_id (VRef l) (mkState h r n)
  = (Normal tt,
     mkState (if truthy (obj_get d "id") then <[lo := obj_set o "id" (obj_get d "id")]> h else h)
       r n).
Proof.
  intros Hl Ho Hlo. unfold inject_id, bind, getp, lift, setp, with_heap. cbn [st_heap get_prop].
  rewrite Hl. destruct (truthy (obj_get d "id")); [|done].
  cbn [st_heap get_prop]. rewrite Hl, Ho. cbn [set_prop]. by rewrite Hlo.
Qed.

Section Normalisation.
Variable env : host.
Variable cfg : config.

(** X20.  Without a parser hook, a descriptor that is complete (plain
    [options] that carry the [id] when one is set, [args] an array) goes to
    the construction of the task with the store as it was. *)
Theorem complete_descriptor_is_left_alone self_run h r n l d lo o la es :
  _parser cfg = None ->
  invalid_task h (VRef l) = false ->
  h !! l = Some d ->
  obj_get d "options" = VRef lo -> h !! lo = Some (OPojo o) ->
  (truthy (obj_get d "id") = true -> assoc_get o "id" = Some (obj_get d "id")) ->
  obj_get d "args" = VRef la -> h !! la = Some (OArray es) ->
  task env cfg self_run (VRef l) (mkState h r n)
  = construct_and_run env cfg self_run (VRef l) (mkState h r n).
Proof.
  intros Hp Hv Hl Ho Hlo Hid Ha Hla.
  rewrite task_valid by done. unfold parsed. rewrite Hp.
  unfold bind at 1. by rewrite (normalize_fixed h r n l d lo o la es).
Qed.

(** X21.  The normalisation steps of [task] are idempotent: run again on the
    descriptor they have completed, they change nothing. *)
Theorem normalisation_is_idempotent h r n l d :
  h !! l = Some d -> is_record d = true ->
  let σ1 := snd (normalize (VRef l) (mkState h r n)) in
  fst (normalize (VRef l) (mkState h r n)) = Normal tt
  /\ normalize (VRef l) σ1 = (Normal tt, σ1).
Proof.
  intros Hl Hrec.
  destruct (ensure_options_spec h r n l d Hl Hrec)
    as (ha & lo & E1 & X1 & A1 & O1 & P1 & C1).
  destruct (X1 l d Hl) as (da & Hla & Sa).
  assert (Hoa : obj_get da "options" = VRef lo).
  { simpl in O1. rewrite Hla in O1. congruence. }
  destruct (isPojo_inv _ _ P1) as (lo' & psa & Elo & Hloa). injection Elo as <-.
  pose proof (inject_id_eq ha r n l da lo (OPojo psa) Hla Hoa Hloa) as E2.
  set (ida := obj_get da "id") in *.
  set (hb := if truthy ida then <[lo := obj_set (OPojo psa) "id" ida]> ha else ha) in *.
  assert (Hltl : l < length ha) by (by eapply lookup_lt_Some).
  assert (Hltlo : lo < length ha) by (by eapply lookup_lt_Some).
  assert (Hb : exists db psb,
             hb !! l = Some db /\ is_record db = true
             /\ obj_get db "options" = VRef lo
             /\ hb !! lo = Some (OPojo psb)
             /\ (truthy (obj_get db "id") = true ->
                 assoc_get psb "id" = Some (obj_get db "id"))).
  { assert (Hra : is_record da = true) by (by rewrite (same_but_record _ _ _ Sa)).
    subst hb. destruct (truthy ida) eqn:Et.
    - destruct (decide (l = lo)) as [->|Hne].
      + rewrite Hloa in Hla. injection Hla as <-.
        exists (obj_set (OPojo psa) "id" ida), (pojo_set psa "id" ida).
        rewrite list_lookup_insert_eq by done. split_and!; try done.
        * by rewrite obj_get_set_ne.
        * intros _. cbn [obj_set obj_get]. rewrite pojo_get_set_eq by done.
          by apply pojo_set_own.
      + exists da, (pojo_set psa "id" ida).
        rewrite list_lookup_insert_ne by congruence.
        rewrite list_lookup_insert_eq by done. split_and!; try done.
        intros _. by apply pojo_set_own.
    - exists da, psa. split_and!; try done. fold ida. rewrite Et. done. }
  destruct Hb as (db & psb & Hlb & Hrb & Hob & Hlob & Hidb).
  destruct (ensure_args_spec hb r n l db Hlb Hrb) as (h' & la & E3 & X3 & G3 & L3 & C3).
  assert (E : normalize (VRef l) (mkState h r n) = (Normal tt, mkState h' r n)).
  { unfold normalize, bind. rewrite E1, E2. exact E3. }
  intros σ1. subst σ1. rewrite E. split; [done|]. cbn [snd].
  destruct (X3 l db Hlb) as (d' & Hl' & Sd).
  destruct (X3 lo _ Hlob) as (o' & Hlo' & So).
  destruct o' as [ps'| | |]; simpl in So; try tauto.
  apply (normalize_fixed h' r n l d' lo ps' la (args_elems hb (obj_get db "args")));
    try done.
  - rewrite (same_but_get _ _ _ "options" Sd); [done|]. simpl. intros [?|[]]. done.
  - assert (Hi : obj_get d' "id" = obj_get db "id").
    { apply (same_but_get _ _ _ "id" Sd). simpl. intros [?|[]]. done. }
    rewrite Hi. intros Ht. rewrite So; [by apply Hidb|]. simpl. intros [?|[]]. done.
  - simpl in G3. rewrite Hl' in G3. congruence.
Qed.

End Normalisation.

Lemma complete_descriptor_is_left_alone_witness :
  let h := [OPojo [("type", VStr "echo"); ("options", VRef 1); ("args", VRef 2)];
            OPojo []; OArray [VNum 7]] in
  task Scenario.env Scenario.lenient (run Scenario.env Scenario.lenient 1) (VRef 0)
    (Scenario.registered Scenario.lenient h)
  = (Normal (VNum 7), Scenario.registered Scenario.lenient h).
Proof.
  intros h.
  refine (eq_trans
            (complete_descriptor_is_left_alone Scenario.env Scenario.lenient
               (run Scenario.env Scenario.lenient 1) h
               (_types (Scenario.registered Scenario.lenient h)) [] 0
               (OPojo [("type", VStr "echo"); ("options", VRef 1); ("args", VRef 2)])
               1 [] 2 [VNum 7] eq_refl eq_refl eq_refl eq_refl eq_refl _ eq_refl eq_refl) _).
  - discriminate.
  - reflexivity.
Defined.

Lemma normalisation_is_idempotent_witness :
  let h := [OPojo [("type", VStr "echo"); ("id", VStr "first"); ("args", VNum 7)]] in
  let σ1 := snd (normalize (VRef 0) (mkState h no_types [])) in
  st_heap σ1 = [OPojo [("type", VStr "echo"); ("id", VStr "first"); ("args", VRef 2);
                       ("options", VRef 1)];
                OPojo [("id", VStr "first")]; OArray [VNum 7]]
  /\ normalize (VRef 0) σ1 = (Normal tt, σ1).
Proof.
  intros h σ1. split; [reflexivity|].
  apply (normalisation_is_idempotent h no_types [] 0
           (OPojo [("type", VStr "echo"); ("id", VStr "first"); ("args", VNum 7)]));
    reflexivity.
Defined.
